(** * The third-party OpenAI adapter: message cleaning, stream decoding,
      usage accounting and the dispatcher of [_generate]

    A shallow embedding of
    [tradingagents/llm_adapters/third_party_openai.py]
    (class [ThirdPartyOpenAI]).

    - A Python [str] is a list of Unicode code points ([list N]); that is
      what [len], slicing, [str.strip] and [re.sub] work on.
    - Text that is only searched for ASCII needles (exception messages,
      HTTP bodies, dictionary keys) is a [string].
    - Python integers are [Z].
    - Dictionaries with caller-chosen keys are [gmap string _].
    - The upstream service is a pair of reply functions of the calls made
      so far; the adapter runs in a state-and-exception monad whose state
      holds the call log and the attribute [_last_api_usage]. *)

From Stdlib Require Import ZArith NArith List Bool Lia QArith Ascii String.
From stdpp Require Import base option list strings gmap pretty.

Set Warnings "-register-all".
Local Open Scope Z_scope.

(** ** Python strings as code points *)

Abbreviation str := (list N).

(** An ASCII literal as a Python string. *)
Definition u (s : string) : str :=
  (fun a => N_of_ascii a) <$> list_ascii_of_string s.

Definition LF : N := 10%N.
Definition CR : N := 13%N.
Definition TAB : N := 9%N.
Definition SPACE : N := 32%N.
Definition ZWSP : N := 0x200b%N.
Definition BOM : N := 0xfeff%N.

(** [str.isspace] of one character, the set [str.strip()] removes and
    the class [\s] of [re] on a [str] pattern. *)
Definition py_isspace (c : N) : bool :=
  ((9 <=? c) && (c <=? 13) || (28 <=? c) && (c <=? 32)
   || (c =? 0x85) || (c =? 0xa0) || (c =? 0x1680)
   || (0x2000 <=? c) && (c <=? 0x200a)
   || (c =? 0x2028) || (c =? 0x2029) || (c =? 0x202f)
   || (c =? 0x205f) || (c =? 0x3000))%N.

Fixpoint lstrip (s : str) : str :=
  match s with
  | c :: s' => if py_isspace c then lstrip s' else s
  | [] => []
  end.

Definition rstrip (s : str) : str := rev (lstrip (rev s)).

(** [s.strip()] *)
Definition strip (s : str) : str := rstrip (lstrip s).

Fixpoint is_prefix (p s : str) : bool :=
  match p, s with
  | [], _ => true
  | a :: p', b :: s' => (a =? b)%N && is_prefix p' s'
  | _ :: _, [] => false
  end.

(** [s.replace(old, new)] for a non-empty [old]: occurrences are found
    left to right and do not overlap. [skip] counts the characters of the
    occurrence just replaced that are still to be passed over. *)
Fixpoint replace_from (old new : str) (skip : nat) (s : str) : str :=
  match s with
  | [] => []
  | c :: s' =>
      match skip with
      | S k => replace_from old new k s'
      | O =>
          if is_prefix old s
          then new ++ replace_from old new (length old - 1) s'
          else c :: replace_from old new 0 s'
      end
  end.

Definition str_replace (old new s : str) : str := replace_from old new 0 s.

(** [re.sub(r'[class]{n,}', repl, s)] for a character class [p]: every
    maximal run of at least [n] characters of the class is replaced by
    [repl]; shorter runs stay. [run] is the run read so far. *)
Definition flush (n : nat) (repl run : str) : str :=
  if (n <=? length run)%nat then repl else run.

Fixpoint sub_runs_from (p : N -> bool) (n : nat) (repl run s : str) : str :=
  match s with
  | [] => flush n repl run
  | c :: s' =>
      if p c then sub_runs_from p n repl (run ++ [c]) s'
      else flush n repl run ++ c :: sub_runs_from p n repl [] s'
  end.

Definition sub_runs (p : N -> bool) (n : nat) (repl s : str) : str :=
  sub_runs_from p n repl [] s.

Definition is_newline (c : N) : bool := (c =? LF)%N.
Definition is_blank (c : N) : bool := ((c =? SPACE) || (c =? TAB))%N.

(** ** [_clean_message_content] *)

(** "请提供分析建议。" *)
Definition default_content : str :=
  [0x8bf7; 0x63d0; 0x4f9b; 0x5206; 0x6790; 0x5efa; 0x8bae; 0x3002]%N.

(** "...(内容过长已截断)" *)
Definition truncation_marker : str :=
  [0x2e; 0x2e; 0x2e; 0x28; 0x5185; 0x5bb9; 0x8fc7; 0x957f; 0x5df2; 0x622a;
   0x65ad; 0x29]%N.

Definition max_length : nat := Z.to_nat 8000.

(** Steps 1 to 3: zero-width characters, line ends, runs of blanks. *)
Definition normalize_content (content : str) : str :=
  let content := str_replace [ZWSP] [] content in
  let content := str_replace [BOM] [] content in
  let content := str_replace [CR] [LF] (str_replace [CR; LF] [LF] content) in
  let content := sub_runs is_newline 3 [LF; LF] content in
  sub_runs is_blank 3 [SPACE; SPACE] content.

(** Step 4: never empty. *)
Definition ensure_content (content : str) : str :=
  let content := strip content in
  match content with [] => default_content | _ => content end.

(** Step 5: the hard cap. *)
Definition truncate_content (content : str) : str :=
  if (max_length <? length content)%nat
  then take max_length content ++ truncation_marker
  else content.

Definition _clean_message_content (content : str) : str :=
  truncate_content (ensure_content (normalize_content content)).

(** ** [_aggressive_clean_messages] *)

(** A message as it is sent on the wire: [{'role': ..., 'content': ...}]. *)
Record api_message := ApiMessage { role : string; content : str }.

(** The characters the first substitution keeps: U+4E00 to U+9FFF,
    U+3400 to U+4DBF, U+0020 to U+007E and the line feed. *)
Definition in_safe_alphabet (c : N) : bool :=
  ((0x4e00 <=? c) && (c <=? 0x9fff) || (0x3400 <=? c) && (c <=? 0x4dbf)
   || (0x20 <=? c) && (c <=? 0x7e) || (c =? LF))%N.

(** The longest prefix without the character [dc], and what follows. *)
Fixpoint span_not (dc : N) (s : str) : str * str :=
  match s with
  | [] => ([], [])
  | c :: s' =>
      if (c =? dc)%N then ([], s)
      else let '(a, b) := span_not dc s' in (c :: a, b)
  end.

Definition is_nil (s : str) : bool := match s with [] => true | _ => false end.

(** [re.sub(d ([^dc]+) d, r'\1', s)] where the delimiter [d] is made of the
    character [dc]: the group cannot cross a [dc], so a match at a position
    is the delimiter, the whole run without [dc] (not empty), and the
    delimiter again. *)
Fixpoint sub_delimited_from (d : str) (dc : N) (skip : nat) (s : str) : str :=
  match s with
  | [] => []
  | c :: s' =>
      match skip with
      | S k => sub_delimited_from d dc k s'
      | O =>
          let '(inner, after) := span_not dc (drop (length d) s) in
          if is_prefix d s && negb (is_nil inner) && is_prefix d after
          then inner ++
               sub_delimited_from d dc (length d + length inner + length d - 1) s'
          else c :: sub_delimited_from d dc 0 s'
      end
  end.

Definition sub_delimited (d : str) (dc : N) (s : str) : str :=
  sub_delimited_from d dc 0 s.

(** [re.sub(r'#+\s*', '', s)]: a run of [#] and the white space after it. *)
Inductive heading_mode := Outside | InHashes | InSpace.

Definition HASH : N := 35%N.
Definition STAR : N := 42%N.
Definition BACKTICK : N := 96%N.

Fixpoint strip_headings_from (m : heading_mode) (s : str) : str :=
  match s with
  | [] => []
  | c :: s' =>
      if (c =? HASH)%N then strip_headings_from InHashes s'
      else match m with
           | Outside => c :: strip_headings_from Outside s'
           | InHashes | InSpace =>
               if py_isspace c then strip_headings_from InSpace s'
               else c :: strip_headings_from Outside s'
           end
  end.

Definition is_full_stop (c : N) : bool :=
  ((c =? 0x3002) || (c =? 0xff01) || (c =? 0xff1f))%N.
Definition is_comma (c : N) : bool :=
  ((c =? 0xff0c) || (c =? 0x3001) || (c =? 0xff1b) || (c =? 0xff1a))%N.

Definition aggressive_max_length : nat := 1000.

Definition aggressive_clean_content (msg_role : string) (content : str) : str :=
  let content := filter (fun c => in_safe_alphabet c = true) content in
  let content := sub_delimited [STAR; STAR] STAR content in
  let content := sub_delimited [STAR] STAR content in
  let content := sub_delimited [BACKTICK] BACKTICK content in
  let content := strip_headings_from Outside content in
  let content := sub_runs is_full_stop 2 [0x3002%N] content in
  let content := sub_runs is_comma 2 [0xff0c%N] content in
  let content := strip content in
  let content :=
    match content with
    | [] => if String.eqb msg_role "user"
            then [0x8bf7; 0x5206; 0x6790]%N    (* "请分析" *)
            else [0x597d; 0x7684]%N            (* "好的" *)
    | _ => content
    end in
  if (aggressive_max_length <? length content)%nat
  then take aggressive_max_length content ++ u "..."
  else content.

Definition _aggressive_clean_messages (messages : list api_message)
  : list api_message :=
  (fun msg => ApiMessage (role msg) (aggressive_clean_content (role msg) (content msg)))
    <$> messages.

(** ** Values, JSON and the stream decoder *)

(** What [json.loads] returns. Numbers are integers. An object is the
    list of its members, keys distinct. *)
Inductive json :=
  | JNull
  | JBool (b : bool)
  | JInt (n : Z)
  | JStr (s : str)
  | JArr (l : list json)
  | JObj (kv : list (string * json)).

Fixpoint jlookup (k : string) (kv : list (string * json)) : option json :=
  match kv with
  | [] => None
  | (k', v) :: kv' => if String.eqb k k' then Some v else jlookup k kv'
  end.

(** Truth value of a Python object, as [if content:] takes it. *)
Definition truthy (j : json) : bool :=
  match j with
  | JNull => false
  | JBool b => b
  | JInt n => negb (n =? 0)
  | JStr s => negb (is_nil s)
  | JArr l => match l with [] => false | _ => true end
  | JObj kv => match kv with [] => false | _ => true end
  end.

Fixpoint str_contains (needle s : str) : bool :=
  is_prefix needle s
  || match s with [] => false | _ :: s' => str_contains needle s' end.

Definition is_the_str (k : str) (j : json) : bool :=
  match j with
  | JStr s => bool_decide (s = k)
  | _ => false
  end.

(** Exceptions. [Exception msg] is an exception with [str(e) = msg];
    [PyError cls] is an exception the interpreter raises on a value of the
    wrong shape (TypeError, AttributeError, KeyError, IndexError): its
    message names types and keys and holds none of the texts the
    dispatcher looks for. *)
Inductive exn :=
  | Exception (msg : string)
  | PyError (cls : string).

Definition result (A : Type) : Type := exn + A.

(** [x.get(k, default)]: only a dict has [get]. *)
Definition jget (x : json) (k : string) (default : json) : result json :=
  match x with
  | JObj kv => inr (match jlookup k kv with Some v => v | None => default end)
  | _ => inl (PyError "AttributeError")
  end.

(** ['choices' in chunk_data] *)
Definition has_choices (chunk_data : json) : result bool :=
  match chunk_data with
  | JObj kv => inr (bool_decide (is_Some (jlookup "choices" kv)))
  | JArr l => inr (existsb (is_the_str (u "choices")) l)
  | JStr s => inr (str_contains (u "choices") s)
  | _ => inl (PyError "TypeError")
  end.

(** [chunk_data['choices']], evaluated once the test above holds *)
Definition get_choices (chunk_data : json) : result json :=
  match chunk_data with
  | JObj kv => match jlookup "choices" kv with
               | Some v => inr v
               | None => inl (PyError "KeyError")
               end
  | _ => inl (PyError "TypeError")
  end.

(** [len(x)] *)
Definition jlen (x : json) : result Z :=
  match x with
  | JStr s => inr (Z.of_nat (length s))
  | JArr l => inr (Z.of_nat (length l))
  | JObj kv => inr (Z.of_nat (length kv))
  | _ => inl (PyError "TypeError")
  end.

(** [x[0]], for an [x] with [len(x) > 0] *)
Definition first_item (x : json) : result json :=
  match x with
  | JArr (e :: _) => inr e
  | JStr (c :: _) => inr (JStr [c])
  | JArr [] | JStr [] => inl (PyError "IndexError")
  | JObj _ => inl (PyError "KeyError")
  | _ => inl (PyError "TypeError")
  end.

(** The body of the [try] of the decoding loop, for one parsed chunk:
    the text of [choices[0].delta.content] is appended. *)
Definition chunk_step (chunk_data : json) (full_content : str) : result str :=
  match has_choices chunk_data with
  | inl e => inl e
  | inr false => inr full_content
  | inr true =>
    match get_choices chunk_data with
    | inl e => inl e
    | inr choices =>
      match jlen choices with
      | inl e => inl e
      | inr n =>
        if 0 <? n then
          match first_item choices with
          | inl e => inl e
          | inr choice =>
            match jget choice "delta" (JObj []) with
            | inl e => inl e
            | inr delta =>
              match jget delta "content" (JStr []) with
              | inl e => inl e
              | inr content =>
                if truthy content then
                  match content with
                  | JStr s => inr (full_content ++ s)
                  | _ => inl (PyError "TypeError")
                  end
                else inr full_content
              end
            end
          end
        else inr full_content
      end
    end
  end.

(** A line of [response.iter_lines()]: bytes, seen through
    [line.decode('utf-8')], which gives the text or raises a
    UnicodeDecodeError with the message [msg]. *)
Inductive raw_line :=
  | Line (decoded_line : str)
  | Undecodable (msg : string).

Section Decoder.
(** [json.loads]; [None] stands for [json.JSONDecodeError]. *)
Variable json_loads : str -> option json.

(** The loop over the lines. The second component tells whether the
    loop left through [break] at [data: [DONE]]. *)
Fixpoint decode_lines (lines : list raw_line) (full_content : str)
  : result (str * bool) :=
  match lines with
  | [] => inr (full_content, false)
  | Undecodable msg :: _ => inl (Exception msg)
  | Line decoded_line :: rest =>
      if is_nil decoded_line then decode_lines rest full_content
      else if is_prefix (u "data: ") decoded_line then
        let data_str := drop 6 decoded_line in
        if bool_decide (data_str = u "[DONE]") then inr (full_content, true)
        else match json_loads data_str with
             | None => decode_lines rest full_content
             | Some chunk_data =>
                 match chunk_step chunk_data full_content with
                 | inl e => inl e
                 | inr full_content' => decode_lines rest full_content'
                 end
             end
      else decode_lines rest full_content
  end.
End Decoder.

(** ** Requests, replies and the adapter's state *)

(** Values of caller options and of the fields of a request body. *)
Inductive pyval :=
  | PNone
  | PBool (b : bool)
  | PInt (n : Z)
  | PFloat (q : Q)
  | PStr (s : string)
  | PStrs (l : list string)
  | PMessages (l : list api_message).

(** A LangChain message: [type] always, [role] on some classes. *)
Record message := Message {
  msg_type : string;
  msg_role : option string;
  msg_content : str }.

(** A [ChatResult]: the text of its one generation, and the
    ['token_usage'] of a non-empty [llm_output]. *)
Record chat_result := ChatResult {
  res_content : str;
  llm_token_usage : option (gmap string Z) }.

(** The dictionary the adapter keeps in [_last_api_usage]. *)
Record usage := Usage {
  prompt_tokens : Z;
  completion_tokens : Z;
  total_tokens : Z }.

(** [usage.get(k, 0)] on a usage object of the upstream. *)
Definition uget (m : gmap string Z) (k : string) : Z := default 0 (m !! k).

(** The JSON document of a non-streamed reply, as far as it is read:
    [data['choices'][0]['message']['content']] and [data['usage']]
    ([None]: no such key). In [Body] the content is a text, or is not
    there ([None]: the subscript raises); in [NoText] it is there but is
    no text and has no length: [null], a number or a boolean. A content
    that is a list or an object is not modelled. *)
Inductive body :=
  | Body (body_content : option str) (body_usage : option (gmap string Z))
  | NoText (body_usage : option (gmap string Z)).

Definition body_usage (data : body) : option (gmap string Z) :=
  match data with
  | Body _ counts => counts
  | NoText counts => counts
  end.

Record response := Response {
  status_code : Z;
  text : string;
  json_data : string + body;        (* [response.json()], or its error *)
  iter_lines : list raw_line;       (* [response.iter_lines()] *)
  stream_error : option string }.   (* the connection breaks after them *)

(** What [requests.post] does. *)
Inductive post_outcome :=
  | Responded (r : response)
  | Timeout
  | ConnectionError
  | RequestException (msg : string).

(** What [super()._generate] does. *)
Inductive std_outcome :=
  | Returned (r : chat_result)
  | Raised (msg : string).

(** One attempt on the upstream service. *)
Inductive call :=
  | StdCall (messages : list message) (stop : option (list string))
            (kwargs : gmap string pyval)
  | PostCall (url : string) (headers : gmap string string)
             (data : gmap string pyval) (timeout : Z).

(** The upstream service answers a call knowing the calls before it. *)
Record upstream := Upstream {
  reply_std : list call -> call -> std_outcome;
  reply_post : list call -> call -> post_outcome }.

Record state := State {
  log : list call;                  (* the attempts made, oldest first *)
  _last_api_usage : option usage;
  tracked : list (Z * Z) }.         (* the counts of the [track_usage] calls *)

Definition M (A : Type) : Type := state -> result A * state.

Definition ret {A} (a : A) : M A := fun st => (inr a, st).
Definition raise {A} (e : exn) : M A := fun st => (inl e, st).
Definition bind {A B} (m : M A) (k : A -> M B) : M B :=
  fun st => match m st with
            | (inr a, st') => k a st'
            | (inl e, st') => (inl e, st')
            end.
(** [try: m  except Exception as e: h e] *)
Definition try_catch {A} (m : M A) (h : exn -> M A) : M A :=
  fun st => match m st with
            | (inr a, st') => (inr a, st')
            | (inl e, st') => h e st'
            end.

Notation "x <- m ;; k" := (bind m (fun x => k))
  (at level 100, m at next level, right associativity).
Notation "m ;;; k" := (bind m (fun _ => k))
  (at level 100, right associativity).

Definition set_last_api_usage (v : option usage) : M unit :=
  fun st => (inr tt, State (log st) v (tracked st)).
Definition get_last_api_usage : M (option usage) :=
  fun st => (inr (_last_api_usage st), st).
Definition track_usage (input_tokens output_tokens : Z) : M unit :=
  fun st => (inr tt, State (log st) (_last_api_usage st)
                           (tracked st ++ [(input_tokens, output_tokens)])).

(** The adapter after [__init__]. *)
Record adapter := Adapter {
  model : string;
  api_key : option string;          (* what [_get_api_key] finds *)
  base_url : string;
  temperature : Q;
  max_tokens : option Z;
  request_timeout : Z;
  streaming : bool;                 (* the flag of the parent class *)
  user_wants_streaming : bool;
  _user_stream_setting : bool;
  parent_kwargs : gmap string pyval }.

(** ** Lower case *)

Definition lower_ascii (a : ascii) : ascii :=
  let n := nat_of_ascii a in
  if ((65 <=? n) && (n <=? 90))%nat then ascii_of_nat (n + 32) else a.

(** [s.lower()]; the text is UTF-8 and only letters of ASCII matter to
    the words searched in the result. *)
Fixpoint lower (s : string) : string :=
  match s with
  | EmptyString => EmptyString
  | String a s' => String (lower_ascii a) (lower s')
  end.

(** ** [__init__]: the two streaming flags *)

(** The truth value Python gives an option. *)
Definition pyval_truthy (v : pyval) : bool :=
  match v with
  | PNone => false
  | PBool b => b
  | PInt n => negb (n =? 0)
  | PFloat q => negb (Qeq_bool q 0)
  | PStr s => negb (String.eqb s "")
  | PStrs l => negb (match l with [] => true | _ => false end)
  | PMessages l => negb (match l with [] => true | _ => false end)
  end.

(** What the parent class makes of a value given for one of its [bool]
    fields: the validation of pydantic takes a boolean, the numbers 0
    and 1 and the usual words for no and yes, in any case; any other
    value is refused ([None]). *)
Definition validate_bool (v : pyval) : option bool :=
  match v with
  | PBool b => Some b
  | PInt n => if n =? 0 then Some false else if n =? 1 then Some true else None
  | PFloat q =>
      if Qeq_bool q 0 then Some false
      else if Qeq_bool q 1 then Some true else None
  | PStr s =>
      if existsb (String.eqb (lower s)) ["0"; "off"; "f"; "false"; "n"; "no"]
      then Some false
      else if existsb (String.eqb (lower s)) ["1"; "on"; "t"; "true"; "y"; "yes"]
      then Some true
      else None
  | _ => None
  end.

(** ['stream'] counts only when it is a boolean. *)
Definition read_stream (kwargs : gmap string pyval) : bool :=
  let default_streaming := false in
  match kwargs !! "stream" with
  | Some (PBool b) => b
  | Some _ => default_streaming
  | None => default_streaming
  end.

(** [None]: the constructor of the parent class raises, for want of a
    key or because it refuses the value of a flag. [user_streaming] is
    the value as given, and [user_streaming or user_stream] is that value
    when it is truthy. *)
Definition init (model : string) (api_key : option string) (base_url : string)
    (temperature : Q) (max_tokens : option Z) (kwargs : gmap string pyval)
  : option adapter :=
  let default_streaming := false in
  let user_streaming :=
    default (PBool default_streaming) (kwargs !! "streaming") in
  let user_stream := read_stream kwargs in
  let kwargs := delete "stream" (delete "streaming" kwargs) in
  match api_key,
        validate_bool user_streaming,
        validate_bool (if pyval_truthy user_streaming then user_streaming
                       else PBool user_stream) with
  | Some _, Some streaming, Some user_wants_streaming =>
      Some {| model := model; api_key := api_key; base_url := base_url;
              temperature := temperature; max_tokens := max_tokens;
              request_timeout := 120;
              streaming := streaming;
              user_wants_streaming := user_wants_streaming;
              _user_stream_setting := user_stream;
              parent_kwargs := kwargs |}
  | _, _, _ => None
  end.

(** ** The parameter filters *)

Definition _filter_safe_kwargs (kwargs : gmap string pyval)
  : gmap string pyval := kwargs.

Definition _filter_model_kwargs (model_kwargs : gmap string pyval)
  : gmap string pyval :=
  if decide (size model_kwargs = 0%nat) then ∅ else model_kwargs.

Definition _filter_model_kwargs_predefined (model_kwargs : gmap string pyval)
    (model_name : string) : gmap string pyval := model_kwargs.

(** ** Reading exception messages *)

Fixpoint contains (needle s : string) : bool :=
  String.prefix needle s
  || match s with
     | EmptyString => false
     | String _ s' => contains needle s'
     end.

(** ["Unexpected token" in str(e) and "while expecting start token" in str(e)] *)
Definition is_token_parse_error (e : exn) : bool :=
  match e with
  | Exception msg =>
      contains "Unexpected token" msg && contains "while expecting start token" msg
  | PyError _ => false
  end.

(** ["500" in str(e) or "Internal server error" in str(e).lower()] *)
Definition is_server_error (e : exn) : bool :=
  match e with
  | Exception msg =>
      contains "500" msg || contains "Internal server error" (lower msg)
  | PyError _ => false
  end.

(** [max(1, int(n * 0.75))] for a length [n]: 0.75 is 3/4, the product is
    exact and [int] truncates. *)
Definition estimate_tokens (n : nat) : Z := Z.max 1 (3 * Z.of_nat n / 4).

(** [" ".join(parts)] *)
Fixpoint join_space (parts : list str) : str :=
  match parts with
  | [] => []
  | [p] => p
  | p :: rest => p ++ SPACE :: join_space rest
  end.

Definition estimate_usage (api_messages : list api_message) (output : str)
  : usage :=
  let input_text := join_space (content <$> api_messages) in
  let input_tokens := estimate_tokens (length input_text) in
  let output_tokens := estimate_tokens (length output) in
  Usage input_tokens output_tokens (input_tokens + output_tokens).

(** "🚨 API服务暂时不可用，请稍后再试。原因：上游API服务出现错误，同时备用调用机制也失败。" *)
Definition service_unavailable : str :=
  [0x1f6a8; 0x20; 0x41; 0x50; 0x49; 0x670d; 0x52a1; 0x6682; 0x65f6; 0x4e0d;
   0x53ef; 0x7528; 0xff0c; 0x8bf7; 0x7a0d; 0x540e; 0x518d; 0x8bd5; 0x3002;
   0x539f; 0x56e0; 0xff1a; 0x4e0a; 0x6e38; 0x41; 0x50; 0x49; 0x670d; 0x52a1;
   0x51fa; 0x73b0; 0x9519; 0x8bef; 0xff0c; 0x540c; 0x65f6; 0x5907; 0x7528;
   0x8c03; 0x7528; 0x673a; 0x5236; 0x4e5f; 0x5931; 0x8d25; 0x3002]%N.

Definition _create_error_response (error_message : str) : chat_result :=
  ChatResult error_message None.

Global Instance api_message_eq_dec : EqDecision api_message.
Proof. solve_decision. Defined.

(** The role of a message on the wire. *)
Definition api_role (msg : message) : string :=
  match msg_role msg with
  | Some r => r
  | None => if String.eqb (msg_type msg) "human" then "user" else "assistant"
  end.

Definition to_api_message (msg : message) : api_message :=
  ApiMessage (api_role msg) (_clean_message_content (msg_content msg)).

(** The message rebuilt for the retry of the standard call. *)
Definition clean_for_retry (msg : message) : message :=
  Message (if String.eqb (msg_type msg) "human" then "human" else "ai")
          None (_clean_message_content (msg_content msg)).

Definition request_headers (key : string) : gmap string string :=
  {[ "Content-Type" := "application/json";
     "Authorization" := "Bearer " ++ key ]}%string.

(** ** The adapter's methods *)

Section Adapter.
Variable json_loads : str -> option json.
Variable up : upstream.
Variable TOKEN_TRACKING_ENABLED : bool.
Variable self : adapter.

(** [super()._generate(messages, stop, run_manager, **kwargs)] *)
Definition call_std (messages : list message) (stop : option (list string))
    (kwargs : gmap string pyval) : M chat_result :=
  fun st =>
    let c := StdCall messages stop kwargs in
    let st' := State (log st ++ [c]) (_last_api_usage st) (tracked st) in
    match reply_std up (log st) c with
    | Returned r => (inr r, st')
    | Raised msg => (inl (Exception msg), st')
    end.

(** [requests.post(url, headers=..., json=data, timeout=...)] *)
Definition post (url : string) (headers : gmap string string)
    (data : gmap string pyval) (timeout : Z) : M post_outcome :=
  fun st =>
    let c := PostCall url headers data timeout in
    (inr (reply_post up (log st) c),
     State (log st ++ [c]) (_last_api_usage st) (tracked st)).

Definition counting_request (messages : list api_message)
  : gmap string pyval :=
  {[ "model" := PStr (model self);
     "messages" := PMessages messages;
     "temperature" := PFloat (1 # 10);
     "max_tokens" := PInt 1;
     "stream" := PBool false ]}.

(** The usage object of a reply with status 200, if it has one. *)
Definition usage_of_reply (r : post_outcome) : option (gmap string Z) :=
  match r with
  | Responded resp =>
      if status_code resp =? 200 then
        match json_data resp with
        | inr data => body_usage data
        | inl _ => None
        end
      else None
  | _ => None
  end.

Definition _get_input_only_tokens (original_messages : list api_message)
    (headers : gmap string string) (api_url : string) (request_timeout : Z)
  : M (option (gmap string Z)) :=
  r <- post api_url headers (counting_request original_messages)
            (Z.min 10 request_timeout) ;;
  ret (usage_of_reply r).

Definition _get_accurate_tokens_via_complete_conversation
    (original_messages : list api_message) (ai_response_content : str)
    (headers : gmap string string) (api_url : string) (request_timeout : Z)
  : M (option usage) :=
  let complete_conversation :=
    ((fun msg => ApiMessage (role msg) (content msg)) <$> original_messages)
    ++ [ApiMessage "assistant" ai_response_content] in
  r <- post api_url headers (counting_request complete_conversation)
            (Z.min 15 request_timeout) ;;
  match usage_of_reply r with
  | Some usage =>
      let total_conversation_tokens := uget usage "prompt_tokens" in
      input_only_usage <-
        _get_input_only_tokens original_messages headers api_url request_timeout ;;
      match input_only_usage with
      | Some input_only_usage =>
          if decide (size input_only_usage = 0%nat) then ret None
          else
            let accurate_input_tokens := uget input_only_usage "prompt_tokens" in
            let accurate_output_tokens :=
              total_conversation_tokens - accurate_input_tokens in
            if 0 <? accurate_output_tokens then
              ret (Some (Usage accurate_input_tokens accurate_output_tokens
                               (accurate_input_tokens + accurate_output_tokens)))
            else ret None
      | None => ret None
      end
  | None => ret None
  end.

(** The reply, or the exception of the matching
    [except requests.exceptions...] clause. *)
Definition received (r : post_outcome) : result response :=
  match r with
  | Responded resp => inr resp
  | Timeout =>
      inl (Exception "请求超时：网络连接问题或服务器响应过慢")
  | ConnectionError =>
      inl (Exception "连接错误：无法连接到API服务器")
  | RequestException msg =>
      inl (Exception ("网络请求错误：" ++ msg))
  end.

(** The answer and the usage of a non-streamed reply with status 200;
    [with_usage] is false on the retry branch, which stores none. A
    content without a length makes [len(content)] raise: in the estimate,
    before anything is stored, or else in the line written to the log,
    after the figures of the upstream have been stored. *)
Definition read_body (resp : response) (api_messages : list api_message)
    (with_usage : bool) : M chat_result :=
  match json_data resp with
  | inl msg => raise (Exception ("网络请求错误：" ++ msg))
  | inr (Body None _) => raise (PyError "KeyError")
  | inr (Body (Some content) counts) =>
      (if with_usage then
         set_last_api_usage
           (Some match counts with
                 | Some usage =>
                     Usage (uget usage "prompt_tokens")
                           (uget usage "completion_tokens")
                           (uget usage "total_tokens")
                 | None => estimate_usage api_messages content
                 end)
       else ret tt) ;;;
      ret (ChatResult content None)
  | inr (NoText counts) =>
      (if with_usage then
         match counts with
         | Some usage =>
             set_last_api_usage
               (Some (Usage (uget usage "prompt_tokens")
                            (uget usage "completion_tokens")
                            (uget usage "total_tokens")))
         | None => ret tt
         end
       else ret tt) ;;;
      raise (PyError "TypeError")
  end.

(** The exception chosen from the status code of a failed reply. *)
Definition status_error (resp : response) : exn :=
  let code := status_code resp in
  if code =? 400 then
    if contains "Unexpected token" (text resp)
    then Exception "输入格式错误：消息包含模型无法解析的特殊字符或格式，请简化输入内容"
    else Exception ("请求格式错误：" ++ text resp)
  else if code =? 401 then Exception "身份验证失败：请检查API密钥是否正确"
  else if code =? 403 then Exception "访问被拒绝：请检查API密钥权限"
  else if code =? 429 then Exception "请求频率超限：请稍后再试"
  else if 500 <=? code then
    Exception ("服务器错误 (" ++ pretty code ++ ")：上游API服务暂时不可用")
  else Exception ("未知错误 (" ++ pretty code ++ ")：" ++ text resp).

Definition request_body (api_messages : list api_message) (stream : bool)
  : gmap string pyval :=
  let request_data : gmap string pyval :=
    {[ "model" := PStr (model self);
       "messages" := PMessages api_messages;
       "temperature" := PFloat (temperature self);
       "stream" := PBool stream ]} in
  match max_tokens self with
  | Some n => if 0 <? n then <["max_tokens" := PInt n]> request_data
              else request_data
  | None => request_data
  end.

Definition _direct_api_call (messages : list message) (stream : bool)
  : M chat_result :=
  match api_key self with
  | None =>
      raise (Exception "配置错误：无法获取API密钥：请检查初始化参数或环境变量OPENAI_API_KEY")
  | Some key =>
    let api_messages := to_api_message <$> messages in
    let request_data := request_body api_messages stream in
    let headers := request_headers key in
    let api_url := (base_url self ++ "/chat/completions")%string in
    let request_timeout := request_timeout self in
    r <- post api_url headers request_data request_timeout ;;
    match received r with
    | inl e => raise e
    | inr response =>
      if stream then
        if negb (status_code response =? 200) then
          raise (Exception ("API调用失败: HTTP " ++ pretty (status_code response)
                            ++ ": " ++ text response))
        else
          match decode_lines json_loads (iter_lines response) [] with
          | inl e => raise e
          | inr (full_content, done) =>
            match (if done then None else stream_error response) with
            | Some msg => raise (Exception ("网络请求错误：" ++ msg))
            | None =>
              accurate_usage <-
                _get_accurate_tokens_via_complete_conversation
                  api_messages full_content headers api_url request_timeout ;;
              set_last_api_usage
                (Some match accurate_usage with
                      | Some accurate_usage => accurate_usage
                      | None => estimate_usage api_messages full_content
                      end) ;;;
              ret (ChatResult full_content None)
            end
          end
      else
        if status_code response =? 200 then
          read_body response api_messages true
        else
          let retried : M (option chat_result) :=
            if contains "Unexpected token" (text response)
               && contains "while expecting start token" (text response)
            then
              let cleaned_messages := _aggressive_clean_messages api_messages in
              if decide (cleaned_messages = api_messages) then ret None
              else
                r' <- post api_url headers
                        (<["messages" := PMessages cleaned_messages]> request_data)
                        request_timeout ;;
                match received r' with
                | inl e => raise e
                | inr retry_response =>
                    if status_code retry_response =? 200 then
                      res <- read_body retry_response api_messages false ;;
                      ret (Some res)
                    else ret None
                end
            else ret None in
          res <- retried ;;
          match res with
          | Some res => ret res
          | None => raise (status_error response)
          end
    end
  end.

(** The [try] block of [_generate]: the resolved flag picks the path. *)
Definition wants_streaming (kwargs : gmap string pyval) : bool :=
  match kwargs !! "stream" with
  | Some (PBool true) => true
  | _ => user_wants_streaming self
  end.

Definition primary_attempt (messages : list message)
    (stop : option (list string)) (kwargs : gmap string pyval)
  : M chat_result :=
  if wants_streaming kwargs then _direct_api_call messages true
  else call_std messages stop kwargs.

(** The [except Exception as e] clause. [inl] is the early [return] of
    an error response, which leaves [_generate] at once. *)
Definition recover (messages : list message) (stop : option (list string))
    (kwargs : gmap string pyval) (e : exn) : M (chat_result + chat_result) :=
  if is_token_parse_error e then
    result <- try_catch
                (call_std (clean_for_retry <$> messages) stop kwargs)
                (fun retry_error => _direct_api_call messages true) ;;
    ret (inr result)
  else if is_server_error e then
    try_catch
      (result <- _direct_api_call messages true ;; ret (inr result))
      (fun direct_error =>
         ret (inl (_create_error_response service_unavailable)))
  else raise e.

(** The token accounting at the end of [_generate]. A [ChatResult] has
    no attribute [content], [response_metadata] or [usage_metadata]:
    methods 2 and 3 find nothing and the estimate of method 5 sees an
    empty output text. *)
Definition track (messages : list message) (result : chat_result) : M unit :=
  let '(input_tokens, output_tokens) :=
    match llm_token_usage result with
    | Some token_usage =>
        (uget token_usage "prompt_tokens", uget token_usage "completion_tokens")
    | None => (0, 0)
    end in
  last <- get_last_api_usage ;;
  io <- (match last with
         | Some last_api_usage =>
             if (input_tokens =? 0) && (output_tokens =? 0) then
               set_last_api_usage None ;;;
               ret (prompt_tokens last_api_usage,
                    completion_tokens last_api_usage)
             else ret (input_tokens, output_tokens)
         | None => ret (input_tokens, output_tokens)
         end) ;;
  let '(input_tokens, output_tokens) := io in
  let '(input_tokens, output_tokens) :=
    if (input_tokens =? 0) && (output_tokens =? 0)
       && negb (match messages with [] => true | _ => false end)
    then (estimate_tokens (length (join_space (msg_content <$> messages))),
          estimate_tokens 0)
    else (input_tokens, output_tokens) in
  if (0 <? input_tokens) || (0 <? output_tokens) then
    if TOKEN_TRACKING_ENABLED then track_usage input_tokens output_tokens
    else ret tt
  else ret tt.

Definition _generate (messages : list message) (stop : option (list string))
    (kwargs : gmap string pyval) : M chat_result :=
  let kwargs := delete "analysis_type" (delete "session_id" kwargs) in
  outcome <- try_catch
               (result <- primary_attempt messages stop kwargs ;;
                ret (inr result))
               (recover messages stop kwargs) ;;
  match outcome with
  | inl error_response => ret error_response
  | inr result => track messages result ;;; ret result
  end.
End Adapter.

(** ** The API key and the base URL

    The value of an attribute of the adapter: [None], a [str] or a
    [SecretStr]; an empty text is falsy in both. *)
Inductive attr_value :=
  | AttrNone
  | AttrStr (s : string)
  | AttrSecret (s : string).

Definition attr_truthy (v : attr_value) : bool :=
  match v with
  | AttrNone => false
  | AttrStr s | AttrSecret s => negb (String.eqb s "")
  end.

(** [api_key.get_secret_value()] or [str(api_key)] *)
Definition attr_text (v : attr_value) : string :=
  match v with
  | AttrNone => "None"
  | AttrStr s | AttrSecret s => s
  end.

(** The loop over [possible_attrs]; an attribute the object does not have
    is absent from [attrs]. *)
Fixpoint first_truthy (attrs : gmap string attr_value)
    (possible_attrs : list string) : option string :=
  match possible_attrs with
  | [] => None
  | attr :: rest =>
      match attrs !! attr with
      | Some api_key =>
          if attr_truthy api_key then Some (attr_text api_key)
          else first_truthy attrs rest
      | None => first_truthy attrs rest
      end
  end.

Definition api_key_missing : string :=
  "无法获取API密钥：请检查初始化参数或环境变量OPENAI_API_KEY".

(** [inl]: the message of the [ValueError]. [env_key] is
    [os.getenv('OPENAI_API_KEY')]. *)
Definition _get_api_key (attrs : gmap string attr_value)
    (env_key : option string) : string + string :=
  match first_truthy attrs ["openai_api_key"; "api_key"; "_api_key"] with
  | Some api_key => inr api_key
  | None =>
      match env_key with
      | Some env_key =>
          if negb (String.eqb env_key "") then inr env_key
          else inl api_key_missing
      | None => inl api_key_missing
      end
  end.

(** The same loop for the URL, whose attributes hold [None] or a [str]. *)
Fixpoint first_url (attrs : gmap string (option string))
    (possible_attrs : list string) : option string :=
  match possible_attrs with
  | [] => None
  | attr :: rest =>
      match attrs !! attr with
      | Some (Some base_url) =>
          if negb (String.eqb base_url "") then Some base_url
          else first_url attrs rest
      | _ => first_url attrs rest
      end
  end.

Definition default_base_url : string := "https://llm.submodel.ai/v1".

Definition _get_base_url (attrs : gmap string (option string)) : string :=
  default default_base_url
          (first_url attrs ["base_url"; "openai_api_base"; "_base_url"]).

(** ** The tables of supported parameters *)

Inductive get_outcome :=
  | GetResponded (status_code : Z) (json_data : option json)
  | GetRaised.

Record get_request := GetRequest {
  get_url : string;
  get_headers : gmap string string;
  get_timeout : Z }.

Section ParameterTables.
(** [str.lower] on the model name and on the URL. *)
Variable py_lower : string -> string.

Definition _parse_model_params (model_data : json) (model_name : string)
  : gmap string bool :=
  let supported : gset string :=
    {[ "model"; "messages"; "temperature"; "max_tokens";
       "top_p"; "frequency_penalty"; "presence_penalty" ]} in
  let supported : gset string :=
    if contains "deepseek" (py_lower model_name) then
      {[ "model"; "messages"; "temperature"; "max_tokens" ]}
    else if contains "gpt" (py_lower model_name) then
      {[ "model"; "messages"; "temperature"; "max_tokens";
         "top_p"; "frequency_penalty"; "presence_penalty";
         "stop"; "stream" ]}
    else supported in
  gset_to_gmap true supported.

Definition _get_default_supported_params (model_name : string)
  : gmap string bool :=
  let base_params : gset string := {[ "model"; "messages"; "temperature" ]} in
  let extra_params : gset string :=
    if contains "deepseek" (py_lower model_name) then {[ "max_tokens" ]}
    else if contains "gpt" (py_lower model_name)
            || contains "openai" (py_lower model_name)
    then {[ "max_tokens"; "top_p"; "frequency_penalty"; "presence_penalty" ]}
    else {[ "max_tokens" ]} in
  let all_params := base_params ∪ extra_params in
  gset_to_gmap true all_params.

(** The table, [_model_param_cache] after the call and the requests made.
    [api_key] and [base_url] are what [_get_api_key] and [_get_base_url]
    find; without a key no request is made. *)
Definition _get_model_supported_params
    (reply_get : get_request -> get_outcome)
    (api_key : option string) (base_url : string)
    (_model_param_cache : gmap string (gmap string bool))
    (model_name : string)
  : gmap string bool * gmap string (gmap string bool) * list get_request :=
  match _model_param_cache !! model_name with
  | Some supported_params => (supported_params, _model_param_cache, [])
  | None =>
      match api_key with
      | None =>
          (_get_default_supported_params model_name, _model_param_cache, [])
      | Some api_key =>
          let api_url :=
            (if contains "openai" (py_lower base_url)
             then base_url ++ "/models/" ++ model_name
             else base_url ++ "/models")%string in
          let headers := request_headers api_key in
          let request := GetRequest api_url headers 30 in
          match reply_get request with
          | GetResponded status_code data =>
              if status_code =? 200 then
                match data with
                | Some data =>
                    let supported_params := _parse_model_params data model_name in
                    (supported_params,
                     <[model_name := supported_params]> _model_param_cache,
                     [request])
                | None =>
                    (_get_default_supported_params model_name,
                     _model_param_cache, [request])
                end
              else (_get_default_supported_params model_name,
                    _model_param_cache, [request])
          | GetRaised =>
              (_get_default_supported_params model_name,
               _model_param_cache, [request])
          end
      end
  end.
End ParameterTables.

(** ** The factory *)

Definition create_third_party_openai (model : string) (api_key : string)
    (base_url : string) (temperature : Q) (max_tokens : Z) : option adapter :=
  init model (Some api_key) base_url temperature (Some max_tokens) ∅.

(** ** The subclass that always takes the direct path *)

(** "API调用失败: " *)
Definition api_call_failed : str :=
  [0x41; 0x50; 0x49; 0x8c03; 0x7528; 0x5931; 0x8d25; 0x3a; 0x20]%N.

(** [kwargs.get('stream', getattr(self, 'streaming', False))], for a flag
    that is a boolean or left out. *)
Definition stream_mode (self : adapter) (kwargs : gmap string pyval)
  : option bool :=
  match kwargs !! "stream" with
  | None => Some (streaming self)
  | Some (PBool b) => Some b
  | Some _ => None
  end.

Module OptimizedOpenAI.

(** [kwargs.setdefault('streaming', False)] *)
Definition init (model : string) (api_key : option string) (base_url : string)
    (temperature : Q) (max_tokens : option Z) (kwargs : gmap string pyval)
  : option adapter :=
  let kwargs :=
    match kwargs !! "streaming" with
    | Some _ => kwargs
    | None => <["streaming" := PBool false]> kwargs
    end in
  init model api_key base_url temperature max_tokens kwargs.

Section OptimizedMethods.
Variable json_loads : str -> option json.
Variable up : upstream.
(** [from tradingagents.config.config_manager import token_tracker]
    succeeds; the method tests no flag. *)
Variable token_tracker_imported : bool.
(** [str(e)] as a Python text. *)
Variable str_of_exn : exn -> str.
Variable self : adapter.

Definition _track_optimized_usage : M unit :=
  last <- get_last_api_usage ;;
  match last with
  | Some usage =>
      let input_tokens := prompt_tokens usage in
      let output_tokens := completion_tokens usage in
      if (0 <? input_tokens) || (0 <? output_tokens) then
        if token_tracker_imported then track_usage input_tokens output_tokens
        else ret tt
      else ret tt
  | None => ret tt
  end.

Definition _generate (messages : list message) (stop : option (list string))
    (kwargs : gmap string pyval) : option (M chat_result) :=
  match stream_mode self kwargs with
  | None => None
  | Some stream_mode =>
      Some (try_catch
              (result <- _direct_api_call json_loads up self messages stream_mode ;;
               _track_optimized_usage ;;;
               ret result)
              (fun e =>
                 ret (_create_error_response (api_call_failed ++ str_of_exn e))))
  end.
End OptimizedMethods.
End OptimizedOpenAI.

(** * Specification vocabulary *)

(** ** Runs, ends and clean texts *)

(** Three consecutive characters of the class [p] somewhere in [s]. *)
Fixpoint has_run3 (p : N -> bool) (s : str) : bool :=
  match s with
  | [] => false
  | x :: t =>
      match t with
      | y :: z :: _ => p x && p y && p z
      | _ => false
      end || has_run3 p t
  end.

Definition starts_clean (s : str) : Prop :=
  match s with
  | [] => True
  | c :: _ => py_isspace c = false
  end.

Definition ends_clean (s : str) : Prop := starts_clean (rev s).

(** The texts [_clean_message_content] leaves before the cap: none of the
    characters it removes, no long run, no white space at the ends, not
    empty. *)
Record clean (s : str) : Prop := Clean {
  clean_zwsp : Forall (fun c => c <> ZWSP) s;
  clean_bom : Forall (fun c => c <> BOM) s;
  clean_cr : Forall (fun c => c <> CR) s;
  clean_newlines : has_run3 is_newline s = false;
  clean_blanks : has_run3 is_blank s = false;
  clean_start : starts_clean s;
  clean_end : ends_clean s;
  clean_nonempty : s <> [] }.

(** ** The calls of one request *)

Definition is_std (c : call) : bool :=
  match c with StdCall _ _ _ => true | PostCall _ _ _ _ => false end.
Definition is_post (c : call) : bool := negb (is_std c).

(** The fields a request body of the direct path can have. *)
Definition core_fields : list string :=
  ["model"; "messages"; "temperature"; "stream"; "max_tokens"].

Definition core_only (data : gmap string pyval) : Prop :=
  forall k, k ∉ core_fields -> data !! k = None.

(** A call of the direct path: a POST whose body has core fields only. *)
Definition direct_call (c : call) : Prop :=
  match c with
  | PostCall _ _ data _ => core_only data
  | StdCall _ _ _ => False
  end.

Definition raised {A} (r : result A) : Prop :=
  match r with inl _ => True | inr _ => False end.

(** A call [_generate] may make: the standard call with the caller's
    options, or a call of the direct path. *)
Definition generate_call (stop : option (list string))
    (kwargs : gmap string pyval) (c : call) : Prop :=
  match c with
  | StdCall _ stop' kwargs' => stop' = stop /\ kwargs' = kwargs
  | PostCall _ _ data _ => core_only data
  end.

(** What one call of [_generate] may add to the log. *)
Definition trace_bound (stop : option (list string))
    (kwargs : gmap string pyval) (l : list call) : Prop :=
  Forall (generate_call stop kwargs) l
  /\ (length l <= 5)%nat
  /\ (length (List.filter is_std l) <= 2)%nat.

(** ** Stream lines *)


(** A chunk without its ["usage"] member. *)
Definition erase_usage (chunk_data : json) : json :=
  match chunk_data with
  | JObj kv => JObj (List.filter (fun e => negb (String.eqb "usage" (fst e))) kv)
  | _ => chunk_data
  end.

(** ** Scenarios *)

Definition QUOTE : N := 34%N.
Definition quoted (s : string) : str := QUOTE :: u s ++ [QUOTE].

(** [{"choices":[{"delta":{"content":"t"}}]}] and its value *)
Definition delta_payload (t : string) : str :=
  u "{" ++ quoted "choices" ++ u ":[{" ++ quoted "delta" ++ u ":{"
    ++ quoted "content" ++ u ":" ++ quoted t ++ u "}}]}".
Definition delta_chunk (t : string) : json :=
  JObj [("choices", JArr [JObj [("delta", JObj [("content", JStr (u t))])]])].

(** A finite table standing for [json.loads]: the listed payloads have
    the listed values, any other text is taken as malformed. *)
Definition loads_table (table : list (str * json)) (s : str) : option json :=
  snd <$> List.find (fun e => bool_decide (fst e = s)) table.

(** [json.loads] on the payloads of the scenarios. *)
Definition usage_payload : str :=
  u "{" ++ quoted "choices" ++ u ":[{" ++ quoted "delta" ++ u ":{"
    ++ quoted "content" ++ u ":" ++ quoted "C" ++ u "}}],"
    ++ quoted "usage" ++ u ":{" ++ quoted "prompt_tokens" ++ u ":12,"
    ++ quoted "completion_tokens" ++ u ":5," ++ quoted "total_tokens"
    ++ u ":17}}".
Definition usage_chunk : json :=
  JObj [("choices", JArr [JObj [("delta", JObj [("content", JStr (u "C"))])]]);
        ("usage", JObj [("prompt_tokens", JInt 12); ("completion_tokens", JInt 5);
                        ("total_tokens", JInt 17)])].

Definition sc_loads : str -> option json :=
  loads_table [(delta_payload "A", delta_chunk "A");
               (delta_payload "B", delta_chunk "B");
               (usage_payload, usage_chunk)].

Definition sentinel : raw_line := Line (u "data: [DONE]").

Definition sc_lines : list raw_line :=
  [Line (u "data: " ++ delta_payload "A"); Line (u "malformed-json");
   Line (u "data: " ++ delta_payload "B"); sentinel].


Definition sc_lines_usage : list raw_line :=
  [Line (u "data: " ++ usage_payload); sentinel].

(** Replies: a streamed answer, a reply with a usage object, a failure. *)
Definition ok_stream (lines : list raw_line) : post_outcome :=
  Responded (Response 200 "" (inl "not JSON") lines None).
Definition ok_usage (usage : gmap string Z) : post_outcome :=
  Responded (Response 200 "" (inr (Body None (Some usage))) [] None).
Definition ok_answer (answer : string) (usage : gmap string Z) : post_outcome :=
  Responded (Response 200 "" (inr (Body (Some (u answer)) (Some usage))) [] None).
Definition not_found : post_outcome :=
  Responded (Response 404 "not found" (inl "not JSON") [] None).

(** An upstream service that answers the standard calls and the POSTs in
    the order of two scripts. *)
Definition scripted (stds : list std_outcome) (posts : list post_outcome)
  : upstream :=
  Upstream
    (fun l _ => nth (length (List.filter is_std l)) stds (Raised "script over"))
    (fun l _ => nth (length (List.filter is_post l)) posts ConnectionError).

Definition sc_self (wants : bool) : adapter :=
  Adapter "m" (Some "k") "http://x" (1 # 10) (Some 2000) 120 wants wants false ∅.

Definition st0 : state := State [] None [].

Definition sc_messages : list message := [Message "human" None (u "**hi**")].

Definition parse_error : std_outcome :=
  Raised "Unexpected token 5 while expecting start token 7".

(** The first call fails to parse, the retry too, the direct call
    streams an answer and both replay calls report their counts. *)
Definition sc_parse_twice : upstream :=
  scripted [parse_error; parse_error]
           [ok_stream sc_lines; ok_usage {["prompt_tokens" := 40]};
            ok_usage {["prompt_tokens" := 25]}].

Definition sc_replay (a b : Z) : upstream :=
  scripted []
           [ok_stream sc_lines; ok_usage {["prompt_tokens" := a]};
            ok_usage {["prompt_tokens" := b]}].

Definition sc_inline_usage : upstream :=
  scripted [] [ok_stream sc_lines_usage; not_found].

(** The standard call fails with a server error; the direct call
    streams an answer and both replay calls report their counts. *)
Definition sc_server_error : upstream :=
  scripted [Raised "Error code: 500"]
           [ok_stream sc_lines; ok_usage {["prompt_tokens" := 40]};
            ok_usage {["prompt_tokens" := 25]}].

Definition sc_body_usage : upstream :=
  scripted [] [ok_answer "ok" {["prompt_tokens" := 12; "completion_tokens" := 5]}].

(** The parameters every table supports. *)
Definition core_params : list string :=
  ["model"; "messages"; "temperature"; "max_tokens"].

Definition supports_core (table : gmap string bool) : Prop :=
  Forall (fun k => table !! k = Some true) core_params.

(** No truthy value under the name. *)
Definition no_key (attrs : gmap string attr_value) (attr : string) : Prop :=
  match attrs !! attr with
  | Some v => attr_truthy v = false
  | None => True
  end.

(** A reply the upstream could not parse, then a retry that succeeds. *)
Definition parse_rejected : response :=
  Response 400 "Unexpected token 5 while expecting start token 7"
           (inl "not JSON") [] None.
Definition sc_retry_ok : upstream :=
  scripted [] [Responded parse_rejected; ok_answer "ok" {["prompt_tokens" := 12]}].

Definition sc_counts : gmap string Z :=
  {["prompt_tokens" := 12; "completion_tokens" := 5]}.

(** A reply of status 200 whose content is [null]. *)
Definition sc_null_content : upstream :=
  scripted [] [Responded (Response 200 "" (inr (NoText (Some sc_counts))) [] None)].

(** * Proofs *)

Ltac solve_chars :=
  repeat first [ apply Forall_nil_2 | apply Forall_cons_2 ];
  try (compute; discriminate); try reflexivity.

Ltac not_core Hk :=
  unfold core_fields in Hk;
  repeat (apply not_elem_of_cons in Hk as [? Hk]);
  repeat (rewrite lookup_insert_ne by congruence);
  try (rewrite lookup_singleton_ne by congruence);
  try reflexivity.

(** ** [_clean_message_content] is idempotent *)

Section Runs.
Variable p : N -> bool.

Lemma has_run3_cons_out c s : p c = false -> has_run3 p (c :: s) = has_run3 p s.
Proof.
  intros Hc. simpl. rewrite Hc. simpl. destruct s as [|y [|z s]]; reflexivity.
Qed.

Lemma has_run3_cons_false c s : has_run3 p (c :: s) = false -> has_run3 p s = false.
Proof. simpl. intros H. apply orb_false_iff in H. tauto. Qed.

Lemma has_run3_app_r a b : has_run3 p (a ++ b) = false -> has_run3 p b = false.
Proof.
  induction a as [|x a IH]; simpl app; [tauto|].
  intros H. apply IH. eapply has_run3_cons_false, H.
Qed.

Lemma has_run3_app_l a b : has_run3 p (a ++ b) = false -> has_run3 p a = false.
Proof.
  induction a as [|x a IH]; [reflexivity|].
  intros H. simpl in H. apply orb_false_iff in H as [H1 H2].
  simpl. rewrite (IH H2), orb_false_r.
  destruct a as [|y [|z a]]; try reflexivity. exact H1.
Qed.

(** A character outside the class separates the runs. *)
Lemma has_run3_sep a c b :
  p c = false -> has_run3 p (a ++ c :: b) = has_run3 p a || has_run3 p b.
Proof.
  intros Hc. induction a as [|x a IH].
  - apply has_run3_cons_out, Hc.
  - change ((x :: a) ++ c :: b) with (x :: (a ++ c :: b)).
    cbn [has_run3]. rewrite IH.
    destruct a as [|y [|z a]]; cbn [app has_run3]; rewrite ?Hc;
      rewrite ?andb_false_r, ?orb_false_l, ?orb_false_r, ?orb_assoc; try reflexivity.
  destruct b; reflexivity.
Qed.

Lemma has_run3_short s : (length s < 3)%nat -> has_run3 p s = false.
Proof.
  destruct s as [|x [|y [|z s]]]; simpl; intros; try reflexivity; lia.
Qed.

Lemma has_run3_all s :
  Forall (fun c => p c = true) s -> has_run3 p s = false -> (length s < 3)%nat.
Proof.
  destruct s as [|x [|y [|z s]]]; simpl; intros Hall H; try lia.
  apply Forall_cons in Hall as [Hx Hall].
  apply Forall_cons in Hall as [Hy Hall].
  apply Forall_cons in Hall as [Hz Hall].
  rewrite Hx, Hy, Hz in H. discriminate.
Qed.
End Runs.

Section SubRuns.
Variable p : N -> bool.
Variable repl : str.

Lemma flush_keep run :
  Forall (fun c => p c = true) run -> has_run3 p run = false ->
  flush 3 repl run = run.
Proof.
  intros Hall H. unfold flush.
  pose proof (has_run3_all p run Hall H).
  destruct (Nat.leb_spec 3 (length run)); [lia | reflexivity].
Qed.

(** A text without a run of three is left as it is. *)
Lemma sub_runs_from_fixed s : forall run,
  Forall (fun c => p c = true) run -> has_run3 p (run ++ s) = false ->
  sub_runs_from p 3 repl run s = run ++ s.
Proof.
  induction s as [|c s IH]; intros run Hall H; simpl.
  - rewrite app_nil_r in *. apply flush_keep; assumption.
  - destruct (p c) eqn:Hc.
    + rewrite IH.
      * rewrite <- app_assoc. reflexivity.
      * apply Forall_app. split; [assumption|]. constructor; [assumption|constructor].
      * rewrite <- app_assoc. exact H.
    + rewrite flush_keep; [|assumption|eapply has_run3_app_l, H].
      rewrite (IH []); [reflexivity|constructor|].
      apply has_run3_app_r in H. apply has_run3_cons_false in H. exact H.
Qed.

Lemma sub_runs_fixed s : has_run3 p s = false -> sub_runs p 3 repl s = s.
Proof. intros H. apply (sub_runs_from_fixed s []); [constructor | exact H]. Qed.

Hypothesis repl_short : (length repl < 3)%nat.

Lemma flush_short run :
  Forall (fun c => p c = true) run -> has_run3 p (flush 3 repl run) = false.
Proof.
  intros Hall. unfold flush. destruct (Nat.leb_spec 3 (length run)).
  - apply has_run3_short, repl_short.
  - apply has_run3_short. assumption.
Qed.

(** The result has no run of three. *)
Lemma sub_runs_from_short s : forall run,
  Forall (fun c => p c = true) run ->
  has_run3 p (sub_runs_from p 3 repl run s) = false.
Proof.
  induction s as [|c s IH]; intros run Hall; simpl.
  - apply flush_short, Hall.
  - destruct (p c) eqn:Hc.
    + apply IH. apply Forall_app. split; [assumption|]. constructor; [assumption|constructor].
    + rewrite has_run3_sep by assumption.
      rewrite flush_short by assumption. apply IH. constructor.
Qed.

Lemma sub_runs_short s : has_run3 p (sub_runs p 3 repl s) = false.
Proof. apply sub_runs_from_short. constructor. Qed.
End SubRuns.

(** Characters kept or brought in: whatever holds of the input, of the
    replacement and of the pending run holds of the result. *)
Lemma sub_runs_from_Forall (P : N -> Prop) p n repl s : forall run,
  Forall P repl -> Forall P run -> Forall P s ->
  Forall P (sub_runs_from p n repl run s).
Proof.
  induction s as [|c s IH]; intros run Hrepl Hrun Hs; simpl.
  - unfold flush. destruct (n <=? length run)%nat; assumption.
  - apply Forall_cons in Hs as [Hc Hs]. destruct (p c).
    + apply IH; try assumption. apply Forall_app. split; [assumption|].
      constructor; [assumption|constructor].
    + apply Forall_app. split.
      * unfold flush. destruct (n <=? length run)%nat; assumption.
      * constructor; [assumption|]. apply IH; try assumption. constructor.
Qed.

Lemma replace_from_Forall (P : N -> Prop) old new s : forall k,
  Forall P new -> Forall P s -> Forall P (replace_from old new k s).
Proof.
  induction s as [|c s IH]; intros k Hnew Hs; simpl; [constructor|].
  apply Forall_cons in Hs as [Hc Hs]. destruct k as [|k].
  - destruct (is_prefix old (c :: s)).
    + apply Forall_app. split; [assumption|]. apply IH; assumption.
    + constructor; [assumption|]. apply IH; assumption.
  - apply IH; assumption.
Qed.

(** Replacing a single character leaves none of it. *)
Lemma replace_char_gone c new s :
  Forall (fun x => x <> c) new ->
  Forall (fun x => x <> c) (str_replace [c] new s).
Proof.
  intros Hnew. unfold str_replace. induction s as [|x s IH]; simpl; [constructor|].
  destruct (N.eqb_spec c x) as [->|Hne]; simpl.
  - apply Forall_app. split; assumption.
  - constructor; [congruence | assumption].
Qed.

(** Nothing to replace where the first character of [old] does not occur. *)
Lemma replace_absent a old new s :
  Forall (fun x => x <> a) s -> str_replace (a :: old) new s = s.
Proof.
  unfold str_replace. induction s as [|x s IH]; intros H; simpl; [reflexivity|].
  apply Forall_cons in H as [Hx Hs].
  destruct (N.eqb_spec a x) as [->|Hne]; [congruence|]. simpl.
  rewrite IH by assumption. reflexivity.
Qed.

Section OtherClass.
Variable q : N -> bool.

Lemma has_run3_skip m b :
  Forall (fun c => q c = false) m -> has_run3 q (m ++ b) = has_run3 q b.
Proof.
  induction 1 as [|c m Hc _ IH]; [reflexivity|].
  simpl app. rewrite has_run3_cons_out by assumption. exact IH.
Qed.

(** Putting a non-empty text without [q] in place of a part of the
    text makes no run of [q]. *)
Lemma has_run3_splice a m m' b :
  Forall (fun c => q c = false) m' -> m' <> [] ->
  has_run3 q (a ++ m ++ b) = false -> has_run3 q (a ++ m' ++ b) = false.
Proof.
  intros Hm' Hne H.
  pose proof (has_run3_app_l q _ _ H) as Ha.
  pose proof (has_run3_app_r q _ _ (has_run3_app_r q _ _ H)) as Hb.
  destruct m' as [|c m']; [congruence|].
  apply Forall_cons in Hm' as [Hc Hm'].
  change (a ++ (c :: m') ++ b) with (a ++ c :: (m' ++ b)).
  rewrite has_run3_sep by assumption.
  rewrite has_run3_skip by assumption. rewrite Ha, Hb. reflexivity.
Qed.

Lemma sub_runs_from_other p n repl s : forall pre run,
  Forall (fun c => q c = false) repl -> repl <> [] ->
  has_run3 q (pre ++ run ++ s) = false ->
  has_run3 q (pre ++ sub_runs_from p n repl run s) = false.
Proof.
  assert (Hflush : forall pre run t,
    Forall (fun c => q c = false) repl -> repl <> [] ->
    has_run3 q (pre ++ run ++ t) = false ->
    has_run3 q (pre ++ flush n repl run ++ t) = false).
  { intros pre run t Hrepl Hne H. unfold flush.
    destruct (n <=? length run)%nat; [|exact H].
    eapply has_run3_splice; eassumption. }
  induction s as [|c s IH]; intros pre run Hrepl Hne H; simpl.
  - specialize (Hflush pre run [] Hrepl Hne H). rewrite app_nil_r in Hflush.
    exact Hflush.
  - destruct (p c).
    + apply IH; try assumption. rewrite <- app_assoc. exact H.
    + specialize (Hflush pre run (c :: s) Hrepl Hne H).
      specialize (IH (pre ++ flush n repl run ++ [c]) [] Hrepl Hne).
      rewrite <- !app_assoc in IH. simpl in IH. apply IH. exact Hflush.
Qed.

Lemma sub_runs_other p n repl s :
  Forall (fun c => q c = false) repl -> repl <> [] ->
  has_run3 q s = false -> has_run3 q (sub_runs p n repl s) = false.
Proof. intros. apply (sub_runs_from_other p n repl s [] []); assumption. Qed.
End OtherClass.

Lemma lstrip_suffix s : exists a, s = a ++ lstrip s.
Proof.
  induction s as [|c s [a Ha]]; [exists []; reflexivity|].
  simpl. destruct (py_isspace c).
  - exists (c :: a). simpl. congruence.
  - exists []. reflexivity.
Qed.

Lemma lstrip_starts_clean s : starts_clean (lstrip s).
Proof.
  induction s as [|c s IH]; simpl; [exact I|].
  destruct (py_isspace c) eqn:Hc; [exact IH | exact Hc].
Qed.

Lemma lstrip_fixed s : starts_clean s -> lstrip s = s.
Proof. destruct s as [|c s]; simpl; [reflexivity|]. intros ->. reflexivity. Qed.

Lemma rstrip_prefix s : exists b, s = rstrip s ++ b.
Proof.
  unfold rstrip. destruct (lstrip_suffix (rev s)) as [a Ha].
  exists (rev a). rewrite <- rev_app_distr, <- Ha, rev_involutive. reflexivity.
Qed.

Lemma strip_infix s : exists a b, s = a ++ strip s ++ b.
Proof.
  unfold strip. destruct (lstrip_suffix s) as [a Ha].
  destruct (rstrip_prefix (lstrip s)) as [b Hb].
  exists a, b. rewrite <- Hb. exact Ha.
Qed.

Lemma strip_fixed s : starts_clean s -> ends_clean s -> strip s = s.
Proof.
  intros Hs He. unfold strip, rstrip. rewrite (lstrip_fixed s Hs).
  rewrite (lstrip_fixed (rev s) He). apply rev_involutive.
Qed.

Lemma strip_ends_clean s : ends_clean (strip s).
Proof.
  unfold ends_clean, strip, rstrip. rewrite rev_involutive.
  apply lstrip_starts_clean.
Qed.

Lemma strip_starts_clean s : starts_clean (strip s).
Proof.
  unfold strip. pose proof (lstrip_starts_clean s) as Ht.
  destruct (rstrip_prefix (lstrip s)) as [b Hb].
  destruct (rstrip (lstrip s)) as [|c r]; [exact I|].
  rewrite Hb in Ht. exact Ht.
Qed.

Lemma normalize_content_fixed s : clean s -> normalize_content s = s.
Proof.
  intros [Hz Hb Hc Hn Hs _ _ _]. unfold normalize_content.
  rewrite (replace_absent ZWSP [] [] s Hz).
  rewrite (replace_absent BOM [] [] s Hb).
  rewrite (replace_absent CR [LF] [LF] s Hc).
  rewrite (replace_absent CR [] [LF] s Hc).
  rewrite (sub_runs_fixed is_newline _ s Hn).
  apply sub_runs_fixed, Hs.
Qed.

Lemma ensure_content_fixed s : clean s -> ensure_content s = s.
Proof.
  intros H. unfold ensure_content.
  rewrite (strip_fixed s (clean_start s H) (clean_end s H)).
  destruct s; [destruct (clean_nonempty _ H); reflexivity | reflexivity].
Qed.

Lemma clean_fixed s :
  clean s -> _clean_message_content s = truncate_content s.
Proof.
  intros H. unfold _clean_message_content.
  rewrite (normalize_content_fixed s H), (ensure_content_fixed s H). reflexivity.
Qed.

Lemma strip_Forall (P : N -> Prop) s : Forall P s -> Forall P (strip s).
Proof.
  destruct (strip_infix s) as (a & b & Hs). intros H. rewrite Hs in H.
  apply Forall_app in H as [_ H]. apply Forall_app in H as [H _]. exact H.
Qed.

Lemma strip_has_run3 p s : has_run3 p s = false -> has_run3 p (strip s) = false.
Proof.
  destruct (strip_infix s) as (a & b & Hs). intros H. rewrite Hs in H.
  eapply has_run3_app_l, has_run3_app_r, H.
Qed.

Lemma normalize_content_zwsp m : Forall (fun c => c <> ZWSP) (normalize_content m).
Proof.
  unfold normalize_content, sub_runs, str_replace.
  apply sub_runs_from_Forall; [solve_chars|solve_chars|].
  apply sub_runs_from_Forall; [solve_chars|solve_chars|].
  apply replace_from_Forall; [solve_chars|].
  apply replace_from_Forall; [solve_chars|].
  apply replace_from_Forall; [solve_chars|].
  apply (replace_char_gone ZWSP [] m). constructor.
Qed.

Lemma normalize_content_bom m : Forall (fun c => c <> BOM) (normalize_content m).
Proof.
  unfold normalize_content, sub_runs.
  apply sub_runs_from_Forall; [solve_chars|solve_chars|].
  apply sub_runs_from_Forall; [solve_chars|solve_chars|].
  unfold str_replace at 1 2.
  apply replace_from_Forall; [solve_chars|].
  apply replace_from_Forall; [solve_chars|].
  apply (replace_char_gone BOM []). constructor.
Qed.

Lemma normalize_content_cr m : Forall (fun c => c <> CR) (normalize_content m).
Proof.
  unfold normalize_content, sub_runs.
  apply sub_runs_from_Forall; [solve_chars|solve_chars|].
  apply sub_runs_from_Forall; [solve_chars|solve_chars|].
  apply (replace_char_gone CR [LF]). solve_chars.
Qed.

Lemma normalize_content_newlines m :
  has_run3 is_newline (normalize_content m) = false.
Proof.
  unfold normalize_content. apply sub_runs_other; [solve_chars|discriminate|].
  apply sub_runs_short. simpl. lia.
Qed.

Lemma normalize_content_blanks m :
  has_run3 is_blank (normalize_content m) = false.
Proof. unfold normalize_content. apply sub_runs_short. simpl. lia. Qed.

Lemma clean_default_content : clean default_content.
Proof.
  split; solve_chars.
Qed.

Lemma ensure_content_clean m : clean (ensure_content (normalize_content m)).
Proof.
  unfold ensure_content.
  destruct (strip (normalize_content m)) as [|c s] eqn:Hs;
    [apply clean_default_content|].
  rewrite <- Hs. split.
  - apply strip_Forall, normalize_content_zwsp.
  - apply strip_Forall, normalize_content_bom.
  - apply strip_Forall, normalize_content_cr.
  - apply strip_has_run3, normalize_content_newlines.
  - apply strip_has_run3, normalize_content_blanks.
  - apply strip_starts_clean.
  - apply strip_ends_clean.
  - rewrite Hs. discriminate.
Qed.

(** The capped text is clean again, and longer than the cap. *)
Lemma truncated_clean s :
  clean s -> clean (take max_length s ++ truncation_marker).
Proof.
  intros [Hz Hb Hc Hn Hs Hst _ Hne]. split.
  - apply Forall_app. split; [apply Forall_take, Hz | solve_chars].
  - apply Forall_app. split; [apply Forall_take, Hb | solve_chars].
  - apply Forall_app. split; [apply Forall_take, Hc | solve_chars].
  - rewrite <- (app_nil_r truncation_marker).
    apply (has_run3_splice is_newline _ [] _ []); [solve_chars|discriminate|].
    rewrite app_nil_r. rewrite <- (take_drop max_length s) in Hn.
    eapply has_run3_app_l, Hn.
  - rewrite <- (app_nil_r truncation_marker).
    apply (has_run3_splice is_blank _ [] _ []); [solve_chars|discriminate|].
    rewrite app_nil_r. rewrite <- (take_drop max_length s) in Hs.
    eapply has_run3_app_l, Hs.
  - destruct s as [|c s]; [congruence|].
    unfold max_length. destruct (Z.to_nat 8000) as [|n] eqn:Hn8; [discriminate|].
    exact Hst.
  - unfold ends_clean. rewrite rev_app_distr. reflexivity.
  - intros H. apply app_eq_nil in H as [_ H]. discriminate.
Qed.

Lemma truncate_content_nonempty s : s <> [] -> truncate_content s <> [].
Proof.
  intros Hne. unfold truncate_content.
  destruct (max_length <? length s)%nat; [|exact Hne].
  intros H. apply app_eq_nil in H as [_ H]. discriminate.
Qed.

Lemma truncate_content_idem s :
  truncate_content (truncate_content s) = truncate_content s.
Proof.
  unfold truncate_content.
  destruct (Nat.ltb_spec max_length (length s)) as [Hlt|Hge].
  - pose proof (eq_refl : length truncation_marker = 12%nat) as Hm.
    rewrite length_app, length_take, Nat.min_l by lia.
    destruct (Nat.ltb_spec max_length (max_length + length truncation_marker)) as [_|H];
      [|lia].
    rewrite take_app_le by (rewrite length_take; lia).
    rewrite take_take, Nat.min_id. reflexivity.
  - destruct (Nat.ltb_spec max_length (length s)); [lia|reflexivity].
Qed.

(** C6: cleaning a message twice gives what cleaning it once gives, for
    every text, and the cleaned text is never empty. The function is total
    on texts: it has nothing to raise. *)
Theorem clean_message_content_idempotent (m : str) :
  _clean_message_content (_clean_message_content m) = _clean_message_content m
  /\ _clean_message_content m <> [].
Proof.
  pose proof (ensure_content_clean m) as Hc.
  unfold _clean_message_content at 2 3 4.
  set (s := ensure_content (normalize_content m)) in *.
  split; [|apply truncate_content_nonempty, (clean_nonempty s Hc)].
  unfold truncate_content at 1 2.
  destruct (Nat.ltb_spec max_length (length s)) as [Hlt|Hge].
  - rewrite (clean_fixed _ (truncated_clean s Hc)).
    pose proof (truncate_content_idem s) as H. unfold truncate_content at 2 3 in H.
    destruct (Nat.ltb_spec max_length (length s)); [exact H|lia].
  - rewrite (clean_fixed s Hc). unfold truncate_content.
    destruct (Nat.ltb_spec max_length (length s)); [lia|reflexivity].
Qed.

(** ** The calls [_generate] makes *)

Section Traces.
Variable json_loads : str -> option json.
Variable up : upstream.
Variable TOKEN_TRACKING_ENABLED : bool.
Variable self : adapter.

Lemma counting_request_core ms : core_only (counting_request self ms).
Proof. intros k Hk. unfold counting_request. not_core Hk. Qed.

Lemma request_body_core ms stream : core_only (request_body self ms stream).
Proof.
  intros k Hk. unfold request_body.
  destruct (max_tokens self) as [n|]; [destruct (0 <? n)|]; not_core Hk.
Qed.

Lemma retry_body_core ms ms' stream :
  core_only (<["messages" := PMessages ms']> (request_body self ms stream)).
Proof.
  intros k Hk. pose proof (request_body_core ms stream k Hk) as H.
  unfold core_fields in Hk.
  repeat (apply not_elem_of_cons in Hk as [? Hk]).
  rewrite lookup_insert_ne by congruence. exact H.
Qed.

(** The replay measurement makes one or two calls and never raises. *)
Lemma replay_trace ms answer headers url t st :
  exists r l,
    _get_accurate_tokens_via_complete_conversation up self ms answer headers url t st
    = (inr r, State (log st ++ l) (_last_api_usage st) (tracked st))
    /\ Forall direct_call l /\ (1 <= length l <= 2)%nat.
Proof.
  unfold _get_accurate_tokens_via_complete_conversation, _get_input_only_tokens,
    bind, post, ret. simpl.
  repeat case_match; simplify_eq; simpl;
    rewrite <- ?app_assoc; simpl;
    eexists _, _; (split; [reflexivity|]);
    (split; [repeat constructor; apply counting_request_core | simpl; lia]).
Qed.

(** The direct call makes at most three calls, all of the direct path;
    when a streamed call raises it has made at most one. *)
Lemma direct_trace messages stream st :
  exists r l last,
    _direct_api_call json_loads up self messages stream st
    = (r, State (log st ++ l) last (tracked st))
    /\ Forall direct_call l /\ (length l <= 3)%nat
    /\ (stream = true -> raised r -> (length l <= 1)%nat /\ last = _last_api_usage st)
    /\ (forall key, api_key self = Some key ->
        hd_error l
        = Some (PostCall (base_url self ++ "/chat/completions")%string
                  (request_headers key)
                  (request_body self (to_api_message <$> messages) stream)
                  (request_timeout self))).
Proof.
  unfold _direct_api_call.
  destruct (api_key self) as [key|].
  2: { exists (inl (Exception "配置错误：无法获取API密钥：请检查初始化参数或环境变量OPENAI_API_KEY")), [], (_last_api_usage st).
       unfold raise. rewrite app_nil_r. destruct st; simpl.
       repeat split; auto; try lia. discriminate. }
  unfold read_body,
    _get_accurate_tokens_via_complete_conversation, _get_input_only_tokens,
    bind, post, ret, raise, set_last_api_usage. simpl.
  repeat case_match; simplify_eq; simpl;
    rewrite <- ?app_assoc; simpl;
    eexists _, _, _; (split; [reflexivity|]);
    (split; [repeat constructor;
             first [apply counting_request_core | apply request_body_core
                   | apply retry_body_core] |]);
    (split; [simpl; lia|]);
    (split; [simpl; intros; try done | intros; simplify_eq; reflexivity]).
Qed.

Lemma track_trace messages result st :
  exists last tr,
    track TOKEN_TRACKING_ENABLED messages result st
    = (inr tt, State (log st) last tr).
Proof.
  destruct st as [l last tr].
  unfold track, bind, ret, get_last_api_usage, set_last_api_usage, track_usage.
  repeat case_match; simplify_eq; simpl in *; simplify_eq;
    eexists _, _; reflexivity.
Qed.

Lemma direct_generate_call stop kwargs l :
  Forall direct_call l -> Forall (generate_call stop kwargs) l.
Proof.
  intros H. eapply Forall_impl; [exact H|].
  intros [] Hc; [destruct Hc | exact Hc].
Qed.

Lemma direct_calls_count l :
  Forall direct_call l ->
  length (List.filter is_std l) = 0%nat /\ length (List.filter is_post l) = length l.
Proof.
  induction 1 as [|c l Hc _ [IH1 IH2]]; [split; reflexivity|].
  destruct c; [destruct Hc|]. simpl. rewrite IH1, IH2. split; reflexivity.
Qed.

Lemma std_trace ms stop kw st :
  exists o,
    call_std up ms stop kw st
    = (o, State (log st ++ [StdCall ms stop kw]) (_last_api_usage st) (tracked st)).
Proof. unfold call_std. destruct (reply_std _ _ _); eauto. Qed.

Lemma std_count (l : list call) :
  (length (List.filter is_std l) <= length l)%nat.
Proof. apply List.filter_length_le. Qed.

Section Dispatch.
Variable messages : list message.
Variable stop : option (list string).
Variable kw : gmap string pyval.

(** The attempts of the [except] clause: at most one standard call
    and at most four calls in all. *)
Lemma recover_trace e st :
  exists o l last,
    recover json_loads up self messages stop kw e st
    = (o, State (log st ++ l) last (tracked st))
    /\ Forall (generate_call stop kw) l
    /\ (length l <= 4)%nat /\ (length (List.filter is_std l) <= 1)%nat.
Proof.
  unfold recover. destruct (is_token_parse_error e).
  - unfold bind, try_catch.
    destruct (std_trace (clean_for_retry <$> messages) stop kw st) as [o ->].
    destruct o as [e'|res].
    + match goal with |- context [_direct_api_call _ _ _ _ _ ?s] =>
        destruct (direct_trace messages true s)
          as (r & l & last & -> & Hl & Hlen & _ & _) end.
      simpl. destruct (direct_calls_count l Hl) as [H1 H2].
      rewrite <- app_assoc.
      destruct r; eexists _, ([StdCall (clean_for_retry <$> messages) stop kw] ++ l), last;
      (split; [reflexivity|]);
      (split; [constructor; [split; reflexivity | apply direct_generate_call, Hl]|]);
      simpl; rewrite H1; lia.
    + simpl. eexists _, [_], _. split; [reflexivity|].
      split; [repeat constructor|]. simpl. lia.
  - destruct (is_server_error e).
    + unfold bind, try_catch.
      destruct (direct_trace messages true st)
        as (r & l & last & -> & Hl & Hlen & _ & _).
      destruct (direct_calls_count l Hl) as [H1 H2].
      destruct r as [e'|res]; simpl; eexists _, l, _;
        (split; [reflexivity|]);
        (split; [apply direct_generate_call, Hl | lia]).
    + exists (inl e), [], (_last_api_usage st). unfold raise.
      rewrite app_nil_r. destruct st. simpl.
      split; [reflexivity|]. split; [constructor | simpl; lia].
Qed.

(** The first attempt: one call when it raises. *)
Lemma primary_trace st :
  exists o l last,
    primary_attempt json_loads up self messages stop kw st
    = (o, State (log st ++ l) last (tracked st))
    /\ Forall (generate_call stop kw) l
    /\ (length l <= 3)%nat /\ (length (List.filter is_std l) <= 1)%nat
    /\ (raised o -> (length l <= 1)%nat).
Proof.
  unfold primary_attempt. destruct (wants_streaming self kw).
  - destruct (direct_trace messages true st)
      as (r & l & last & -> & Hl & Hlen & Hr & _).
    destruct (direct_calls_count l Hl) as [H1 H2].
    exists r, l, last. split; [reflexivity|].
    split; [apply direct_generate_call, Hl|].
    repeat split; try lia. intros Hra. apply Hr; [reflexivity | exact Hra].
  - destruct (std_trace messages stop kw st) as [o ->].
    eexists _, [_], _. split; [reflexivity|].
    split; [repeat constructor|]. simpl. repeat split; lia.
Qed.
End Dispatch.

Lemma generate_trace messages stop kwargs st :
  exists r l last tr,
    _generate json_loads up TOKEN_TRACKING_ENABLED self messages stop kwargs st
    = (r, State (log st ++ l) last tr)
    /\ trace_bound stop (delete "analysis_type" (delete "session_id" kwargs)) l.
Proof.
  unfold _generate.
  set (kw := delete "analysis_type" (delete "session_id" kwargs)).
  assert (Hfinish : forall (o : result (chat_result + chat_result)) l last tr,
    trace_bound stop kw l ->
    exists r l' last' tr',
      match o with
      | inr (inr res) =>
          (track TOKEN_TRACKING_ENABLED messages res ;;; ret res)
            (State (log st ++ l) last tr)
      | inr (inl res) => (inr res, State (log st ++ l) last tr)
      | inl e => (inl e, State (log st ++ l) last tr)
      end = (r, State (log st ++ l') last' tr') /\ trace_bound stop kw l').
  { intros [e|[res|res]] l last tr Hb; [eauto 10 .. |]. unfold bind, ret.
    destruct (track_trace messages res (State (log st ++ l) last tr))
      as (last' & tr' & ->). simpl. eauto 10. }
  unfold bind at 1. unfold try_catch, bind at 1.
  destruct (primary_trace messages stop kw st)
    as (o & l & last & -> & Hl & Hlen & Hstd & Hr).
  destruct o as [e|res].
  - destruct (recover_trace messages stop kw e (State (log st ++ l) last (tracked st)))
      as (o' & l' & last' & -> & Hl' & Hlen' & Hstd'). simpl.
    rewrite <- app_assoc.
    specialize (Hr I). pose proof (std_count l).
    assert (Hb : trace_bound stop kw (l ++ l')).
    { split; [apply Forall_app; split; assumption|].
      rewrite List.filter_app, !length_app. lia. }
    destruct o' as [e'|[res|res]].
    + apply (Hfinish (inl e')), Hb.
    + apply (Hfinish (inr (inl res))), Hb.
    + apply (Hfinish (inr (inr res))), Hb.
  - simpl. apply (Hfinish (inr (inr res))).
    split; [assumption|]. lia.
Qed.
End Traces.

(** ** The replay measurement *)

Lemma copy_messages (ms : list api_message) :
  (fun msg => ApiMessage (role msg) (content msg)) <$> ms = ms.
Proof. induction ms as [|[] ms IH]; simpl; [reflexivity|]. f_equal. exact IH. Qed.

Lemma size_nonzero (m : gmap string Z) k v : m !! k = Some v -> size m <> 0%nat.
Proof. intros H Hs. apply map_size_empty_iff in Hs. subst m. rewrite lookup_empty in H. discriminate. Qed.

(** C1: a streamed direct call whose two replay requests are answered with
    usage objects reporting [a] prompt tokens for the conversation with
    the answer and [b] for the input alone stores the usage
    [{prompt_tokens: b, completion_tokens: a - b, total_tokens: a}] when
    [a - b > 0]; otherwise no replay figure is stored and the stored
    usage is the estimate from the lengths of the texts. *)
Theorem replay_measurement json_loads up self messages st key resp full done a b ua ub :
  let api_messages := to_api_message <$> messages in
  let url := (base_url self ++ "/chat/completions")%string in
  let headers := request_headers key in
  let c1 := PostCall url headers (request_body self api_messages true)
                     (request_timeout self) in
  let c2 := PostCall url headers
              (counting_request self (api_messages ++ [ApiMessage "assistant" full]))
              (Z.min 15 (request_timeout self)) in
  let c3 := PostCall url headers (counting_request self api_messages)
                     (Z.min 10 (request_timeout self)) in
  api_key self = Some key ->
  reply_post up (log st) c1 = Responded resp ->
  status_code resp = 200 ->
  decode_lines json_loads (iter_lines resp) [] = inr (full, done) ->
  (done = false -> stream_error resp = None) ->
  usage_of_reply (reply_post up (log st ++ [c1]) c2) = Some ua ->
  ua !! "prompt_tokens" = Some a ->
  usage_of_reply (reply_post up (log st ++ [c1; c2]) c3) = Some ub ->
  ub !! "prompt_tokens" = Some b ->
  _direct_api_call json_loads up self messages true st
  = (inr (ChatResult full None),
     State (log st ++ [c1; c2; c3])
           (Some (if 0 <? a - b then Usage b (a - b) a
                  else estimate_usage api_messages full))
           (tracked st)).
Proof.
  intros api_messages url headers c1 c2 c3 Hkey H1 H200 Hdec Hbroken Hua Ha Hub Hb.
  unfold _direct_api_call. rewrite Hkey.
  fold api_messages url headers.
  unfold bind at 1. unfold post at 1. fold c1. rewrite H1. cbn [received].
  rewrite H200. cbn [Z.eqb Pos.eqb negb]. rewrite Hdec.
  replace (if done then None else stream_error resp) with (@None string)
    by (destruct done; [reflexivity | symmetry; auto]).
  unfold _get_accurate_tokens_via_complete_conversation, _get_input_only_tokens.
  rewrite copy_messages. unfold bind, post, ret, set_last_api_usage.
  cbn [log _last_api_usage tracked]. fold c2. rewrite Hua.
  cbv beta iota. cbn [log _last_api_usage tracked]. fold c3. rewrite <- !app_assoc. cbn [app]. rewrite Hub.
  destruct (decide (size ub = 0%nat)) as [Hs|_];
    [exfalso; exact (size_nonzero _ _ _ Hb Hs)|].
  unfold uget. rewrite Ha, Hb. cbn [default from_option]. unfold id.
  replace (b + (a - b)) with a by lia.
  destruct (0 <? a - b); reflexivity.
Qed.

(** The scenario of the specification: 40 and 25 give 25, 15 and 40;
    equal counts give the estimate. *)
Lemma replay_measurement_witness :
  _last_api_usage
    (snd (_direct_api_call sc_loads (sc_replay 40 25) (sc_self true)
            sc_messages true st0))
  = Some (Usage 25 15 40)
  /\ _last_api_usage
       (snd (_direct_api_call sc_loads (sc_replay 25 25) (sc_self true)
               sc_messages true st0))
     = Some (estimate_usage (to_api_message <$> sc_messages) (u "AB")).
Proof.
  split.
  - rewrite (replay_measurement sc_loads (sc_replay 40 25) (sc_self true)
               sc_messages st0 "k"
               (Response 200 "" (inl "not JSON") sc_lines None) (u "AB") true
               40 25 {["prompt_tokens" := 40]} {["prompt_tokens" := 25]});
      vm_compute; reflexivity.
  - rewrite (replay_measurement sc_loads (sc_replay 25 25) (sc_self true)
               sc_messages st0 "k"
               (Response 200 "" (inl "not JSON") sc_lines None) (u "AB") true
               25 25 {["prompt_tokens" := 25]} {["prompt_tokens" := 25]});
      vm_compute; reflexivity.
Defined.

(** ** The stream decoder *)

Section DecoderFacts.
Variable json_loads : str -> option json.

(** One turn of the loop. *)
Lemma decode_lines_line s rest acc :
  decode_lines json_loads (Line s :: rest) acc
  = if is_nil s then decode_lines json_loads rest acc
    else if is_prefix (u "data: ") s then
      if bool_decide (drop 6 s = u "[DONE]") then inr (acc, true)
      else match json_loads (drop 6 s) with
           | None => decode_lines json_loads rest acc
           | Some chunk_data =>
               match chunk_step chunk_data acc with
               | inl e => inl e
               | inr acc' => decode_lines json_loads rest acc'
               end
           end
    else decode_lines json_loads rest acc.
Proof. reflexivity. Qed.




End DecoderFacts.



(** *** Inline usage objects *)

Lemma jlookup_erase k kv :
  k <> "usage" ->
  jlookup k (List.filter (fun e => negb (String.eqb "usage" (fst e))) kv)
  = jlookup k kv.
Proof.
  intros Hk. induction kv as [|[k' v] kv IH]; [reflexivity|].
  cbn [List.filter fst].
  destruct (String.eqb_spec "usage" k') as [<-|Hne]; cbn [negb jlookup].
  - destruct (String.eqb_spec k "usage"); [contradiction | exact IH].
  - rewrite IH. reflexivity.
Qed.

Lemma chunk_step_erase chunk_data acc :
  chunk_step (erase_usage chunk_data) acc = chunk_step chunk_data acc.
Proof.
  destruct chunk_data as [| | | | |kv]; try reflexivity.
  unfold chunk_step, erase_usage, has_choices, get_choices.
  rewrite jlookup_erase by discriminate. reflexivity.
Qed.

Lemma decode_lines_erase json_loads lines : forall acc,
  decode_lines (fun s => erase_usage <$> json_loads s) lines acc
  = decode_lines json_loads lines acc.
Proof.
  induction lines as [|[s|msg] lines IH]; intros acc; try reflexivity.
  rewrite !decode_lines_line.
  destruct (json_loads (drop 6 s)) as [chunk|]; cbn [fmap option_fmap option_map];
    rewrite ?chunk_step_erase, ?IH;
    [destruct (chunk_step chunk acc); rewrite ?IH|]; reflexivity.
Qed.

Section UsageFacts.
Variable json_loads : str -> option json.
Variable up : upstream.
Variable self : adapter.

Lemma direct_call_erase messages stream st :
  _direct_api_call (fun s => erase_usage <$> json_loads s) up self messages stream st
  = _direct_api_call json_loads up self messages stream st.
Proof.
  unfold _direct_api_call. destruct (api_key self); [|reflexivity].
  unfold bind, post. cbv beta iota.
  destruct (received _); [reflexivity|]. destruct stream; [|reflexivity].
  destruct (negb _); [reflexivity|]. rewrite decode_lines_erase. reflexivity.
Qed.

(** What the replay measurement returns. *)
Lemma replay_record ms answer headers url t st rec st' :
  _get_accurate_tokens_via_complete_conversation up self ms answer headers url t st
  = (inr (Some rec), st') ->
  exists a b, 0 < a - b /\ rec = Usage b (a - b) (b + (a - b)).
Proof.
  unfold _get_accurate_tokens_via_complete_conversation, _get_input_only_tokens,
    bind, post, ret.
  intros H. repeat case_match; simplify_eq.
  eexists _, _. split; [|reflexivity]. apply Z.ltb_lt. assumption.
Qed.

(** Where the usage stored by a streamed call comes from. *)
Lemma stream_usage_origin messages st r st' :
  _direct_api_call json_loads up self messages true st = (inr r, st') ->
  exists rec,
    _last_api_usage st' = Some rec
    /\ (rec = estimate_usage (to_api_message <$> messages) (res_content r)
        \/ exists a b, 0 < a - b /\ rec = Usage b (a - b) (b + (a - b))).
Proof.
  unfold _direct_api_call. destruct (api_key self) as [key|]; [|discriminate].
  unfold bind at 1. unfold post. cbv beta iota.
  destruct (received _) as [e|resp]; [discriminate|].
  destruct (negb _); [discriminate|].
  destruct (decode_lines _ _ _) as [e|[full done]]; [discriminate|].
  destruct (if done then None else stream_error resp); [discriminate|].
  unfold bind.
  destruct (_get_accurate_tokens_via_complete_conversation _ _ _ _ _ _ _ _)
    as [[e|[rec|]] st2] eqn:Hreplay; [discriminate| |];
    unfold set_last_api_usage, ret; intros H; simplify_eq; simpl;
    eexists; (split; [reflexivity|]).
  - right. eapply replay_record, Hreplay.
  - left. reflexivity.
Qed.

Lemma estimate_tokens_pos n : 1 <= estimate_tokens n.
Proof. unfold estimate_tokens. lia. Qed.

(** A non-streamed reply: the three figures of the upstream, as sent. *)
Lemma body_usage_verbatim messages st key resp answer counts :
  let api_messages := to_api_message <$> messages in
  let c := PostCall (base_url self ++ "/chat/completions")%string
             (request_headers key) (request_body self api_messages false)
             (request_timeout self) in
  api_key self = Some key ->
  reply_post up (log st) c = Responded resp ->
  status_code resp = 200 ->
  json_data resp = inr (Body (Some answer) (Some counts)) ->
  _direct_api_call json_loads up self messages false st
  = (inr (ChatResult answer None),
     State (log st ++ [c])
           (Some (Usage (uget counts "prompt_tokens")
                        (uget counts "completion_tokens")
                        (uget counts "total_tokens")))
           (tracked st)).
Proof.
  intros api_messages c Hkey Hreply H200 Hjson.
  unfold _direct_api_call. rewrite Hkey. fold api_messages.
  unfold bind at 1. unfold post. fold c. rewrite Hreply. cbn [received].
  rewrite H200. cbn [Z.eqb Pos.eqb]. unfold read_body. rewrite Hjson.
  reflexivity.
Qed.
End UsageFacts.

(** C4 (as amended): the decoder reads no inline usage object. Erasing the
    ["usage"] member of every chunk changes nothing in the outcome of a
    streamed direct call (answer, stored usage, calls made); the usage a
    successful streamed call stores is the replay measurement, or the
    estimate from the lengths of the texts when the replay gives none. *)
Theorem inline_usage_not_captured json_loads up self messages st :
  _direct_api_call (fun s => erase_usage <$> json_loads s) up self messages true st
  = _direct_api_call json_loads up self messages true st
  /\ forall r st',
      _direct_api_call json_loads up self messages true st = (inr r, st') ->
      exists rec,
        _last_api_usage st' = Some rec
        /\ (rec = estimate_usage (to_api_message <$> messages) (res_content r)
            \/ exists a b, 0 < a - b /\ rec = Usage b (a - b) (b + (a - b))).
Proof.
  split; [apply direct_call_erase | apply stream_usage_origin].
Qed.

(** A stream whose chunk carries a usage object, the replay refused. *)
Lemma inline_usage_not_captured_witness :
  exists rec,
    _last_api_usage
      (snd (_direct_api_call sc_loads sc_inline_usage (sc_self true)
              sc_messages true st0)) = Some rec
    /\ (rec = estimate_usage (to_api_message <$> sc_messages) (u "C")
        \/ exists a b, 0 < a - b /\ rec = Usage b (a - b) (b + (a - b))).
Proof.
  apply (proj2 (inline_usage_not_captured sc_loads sc_inline_usage (sc_self true)
                  sc_messages st0) (ChatResult (u "C") None)).
  vm_compute. reflexivity.
Defined.

(** The chunk carries the usage 12, 5, 17; the decoder returns the text
    "C" alone, a replay call is made, and the stored usage is the
    estimate 4, 1, 5. *)
Lemma inline_usage_lost :
  let run := _direct_api_call sc_loads sc_inline_usage (sc_self true)
               sc_messages true st0 in
  sc_loads usage_payload = Some usage_chunk
  /\ erase_usage usage_chunk <> usage_chunk
  /\ fst run = inr (ChatResult (u "C") None)
  /\ _last_api_usage (snd run) = Some (Usage 4 1 5)
  /\ Usage 4 1 5 <> Usage 12 5 17
  /\ length (log (snd run)) = 2%nat.
Proof. vm_compute. repeat split; discriminate. Qed.

(** C8 (as amended): the estimated usage has [total = prompt + completion]
    with both counts at least 1; a replay record has
    [total = prompt + completion] with a completion count of at least 1;
    so has whatever a successful streamed call stores. A non-streamed
    reply with a usage object is stored as the upstream sent it, a missing
    figure as 0: nothing is checked or recomputed there. *)
Theorem usage_record_invariant json_loads up self :
  (forall ms out,
      let rec := estimate_usage ms out in
      total_tokens rec = prompt_tokens rec + completion_tokens rec
      /\ 1 <= prompt_tokens rec /\ 1 <= completion_tokens rec)
  /\ (forall ms answer headers url t st rec st',
        _get_accurate_tokens_via_complete_conversation up self ms answer headers url t st
        = (inr (Some rec), st') ->
        total_tokens rec = prompt_tokens rec + completion_tokens rec
        /\ 1 <= completion_tokens rec)
  /\ (forall messages st r st',
        _direct_api_call json_loads up self messages true st = (inr r, st') ->
        exists rec,
          _last_api_usage st' = Some rec
          /\ total_tokens rec = prompt_tokens rec + completion_tokens rec
          /\ 1 <= completion_tokens rec)
  /\ (forall messages st key resp answer counts,
        api_key self = Some key ->
        reply_post up (log st)
          (PostCall (base_url self ++ "/chat/completions")%string
             (request_headers key)
             (request_body self (to_api_message <$> messages) false)
             (request_timeout self)) = Responded resp ->
        status_code resp = 200 ->
        json_data resp = inr (Body (Some answer) (Some counts)) ->
        _last_api_usage
          (snd (_direct_api_call json_loads up self messages false st))
        = Some (Usage (uget counts "prompt_tokens")
                      (uget counts "completion_tokens")
                      (uget counts "total_tokens"))).
Proof.
  split; [|split; [|split]].
  - intros ms out. simpl.
    pose proof (estimate_tokens_pos (length (join_space (content <$> ms)))).
    pose proof (estimate_tokens_pos (length out)). auto.
  - intros * H. destruct (replay_record _ _ _ _ _ _ _ _ _ _ H) as (a & b & Hab & ->).
    simpl. lia.
  - intros * H.
    destruct (stream_usage_origin _ _ _ _ _ _ _ H) as (rec & Hrec & [->|(a & b & Hab & ->)]);
      eexists; (split; [exact Hrec|]); simpl.
    + pose proof (estimate_tokens_pos (length (res_content r))). lia.
    + lia.
  - intros messages st key resp answer counts Hkey Hreply H200 Hjson.
    rewrite (body_usage_verbatim json_loads up self messages st key resp answer counts
               Hkey Hreply H200 Hjson). reflexivity.
Qed.

(** A replay record, and a reply body without [total_tokens]. *)
Lemma usage_record_invariant_witness :
  (exists rec,
      _last_api_usage
        (snd (_direct_api_call sc_loads (sc_replay 40 25) (sc_self true)
                sc_messages true st0)) = Some rec
      /\ total_tokens rec = prompt_tokens rec + completion_tokens rec
      /\ 1 <= completion_tokens rec)
  /\ _last_api_usage
       (snd (_direct_api_call sc_loads sc_body_usage (sc_self false)
               sc_messages false st0))
     = Some (Usage 12 5 0).
Proof.
  split.
  - apply (proj1 (proj2 (proj2 (usage_record_invariant sc_loads (sc_replay 40 25)
                                  (sc_self true))))
             sc_messages st0 (ChatResult (u "AB") None)).
    vm_compute. reflexivity.
  - refine (eq_trans
              (proj2 (proj2 (proj2 (usage_record_invariant sc_loads sc_body_usage
                                      (sc_self false))))
                 sc_messages st0 "k"
                 (Response 200 ""
                    (inr (Body (Some (u "ok"))
                            (Some {["prompt_tokens" := 12; "completion_tokens" := 5]})))
                    [] None)
                 (u "ok")
                 {["prompt_tokens" := 12; "completion_tokens" := 5]} _ _ _ _) _);
      vm_compute; reflexivity.
Defined.

(** The upstream reports 12 and 5 and no total: the record stored has
    total 0, not 17. *)
Lemma upstream_total_not_checked :
  let rec := _last_api_usage
               (snd (_direct_api_call sc_loads sc_body_usage (sc_self false)
                       sc_messages false st0)) in
  rec = Some (Usage 12 5 0)
  /\ total_tokens (Usage 12 5 0)
     <> prompt_tokens (Usage 12 5 0) + completion_tokens (Usage 12 5 0).
Proof. vm_compute. split; [reflexivity | discriminate]. Qed.

(** ** The dispatcher *)

Lemma request_body_stream self ms stream :
  request_body self ms stream !! "stream" = Some (PBool stream).
Proof.
  unfold request_body.
  destruct (max_tokens self) as [n|]; [destruct (0 <? n)|]; by simplify_map_eq.
Qed.

Section FirstCall.
Variable json_loads : str -> option json.
Variable up : upstream.
Variable TOKEN_TRACKING_ENABLED : bool.
Variable self : adapter.

(** The first call of the first attempt. *)
Lemma primary_first_call messages stop kw st key :
  api_key self = Some key ->
  exists c l,
    log (snd (primary_attempt json_loads up self messages stop kw st))
    = log st ++ c :: l
    /\ if wants_streaming self kw
       then exists url headers data timeout,
              c = PostCall url headers data timeout
              /\ data !! "stream" = Some (PBool true)
       else c = StdCall messages stop kw.
Proof.
  intros Hkey. unfold primary_attempt. destruct (wants_streaming self kw).
  - destruct (direct_trace json_loads up self messages true st)
      as (r & l & last & -> & _ & _ & _ & Hhd).
    specialize (Hhd key Hkey). destruct l as [|c l]; [discriminate|].
    injection Hhd as ->. eexists _, l. split; [reflexivity|].
    eexists _, _, _, _. split; [reflexivity | apply request_body_stream].
  - destruct (std_trace up messages stop kw st) as [o ->].
    eexists _, []. split; reflexivity.
Qed.

(** Without the streaming flag [_generate] starts with the standard
    call, and hands it the caller's options. *)
Lemma generate_first_std messages stop kwargs st :
  let kw := delete "analysis_type" (delete "session_id" kwargs) in
  wants_streaming self kw = false ->
  exists l,
    log (snd (_generate json_loads up TOKEN_TRACKING_ENABLED self
                messages stop kwargs st))
    = log st ++ StdCall messages stop kw :: l.
Proof.
  intros kw Hw. unfold _generate. fold kw.
  unfold bind at 1. unfold try_catch, bind at 1, primary_attempt. rewrite Hw.
  destruct (std_trace up messages stop kw st) as [o ->].
  assert (Hfinish : forall l last tr (res : chat_result),
    exists l',
      log (snd ((track TOKEN_TRACKING_ENABLED messages res ;;; ret res)
                  (State (log st ++ StdCall messages stop kw :: l) last tr)))
      = log st ++ StdCall messages stop kw :: l').
  { intros l last tr res. unfold bind, ret.
    destruct (track_trace TOKEN_TRACKING_ENABLED messages res
                (State (log st ++ StdCall messages stop kw :: l) last tr))
      as (last' & tr' & ->). exists l. reflexivity. }
  destruct o as [e|res].
  - destruct (recover_trace json_loads up self messages stop kw e
                (State (log st ++ [StdCall messages stop kw])
                       (_last_api_usage st) (tracked st)))
      as (o' & l' & last' & -> & _). cbn [log].
    rewrite <- app_assoc. cbn [app].
    destruct o' as [e'|[res|res]]; [exists l'; reflexivity .. |].
    apply Hfinish.
  - cbv beta iota. apply (Hfinish []).
Qed.

(** After a server error of the standard call the direct path is taken
    with [stream=True], whatever the flags. *)
Lemma generate_server_error_fallback messages stop kwargs st msg key :
  let kw := delete "analysis_type" (delete "session_id" kwargs) in
  api_key self = Some key ->
  wants_streaming self kw = false ->
  reply_std up (log st) (StdCall messages stop kw) = Raised msg ->
  is_token_parse_error (Exception msg) = false ->
  is_server_error (Exception msg) = true ->
  exists url headers data timeout l,
    log (snd (_generate json_loads up TOKEN_TRACKING_ENABLED self
                messages stop kwargs st))
    = log st ++ StdCall messages stop kw :: PostCall url headers data timeout :: l
    /\ data !! "stream" = Some (PBool true).
Proof.
  intros kw Hkey Hw Hreply Hparse Hserver. unfold _generate. fold kw.
  unfold bind at 1. unfold try_catch, bind at 1, primary_attempt. rewrite Hw.
  unfold call_std. rewrite Hreply. unfold recover. rewrite Hparse, Hserver.
  unfold try_catch, bind at 1.
  destruct (direct_trace json_loads up self messages true
              (State (log st ++ [StdCall messages stop kw]) (_last_api_usage st)
                     (tracked st)))
    as (r & l & last & -> & _ & _ & _ & Hhd).
  specialize (Hhd key Hkey). destruct l as [|c l]; [discriminate|].
  injection Hhd as ->. cbn [log]. rewrite <- app_assoc. cbn [app].
  eexists _, _, _, _, l.
  split; [|apply (request_body_stream self (to_api_message <$> messages) true)].
  destruct r as [e|res]; [reflexivity|].
  unfold ret, bind.
  match goal with |- context [track _ _ _ ?s] =>
    destruct (track_trace TOKEN_TRACKING_ENABLED messages res s)
      as (last' & tr' & ->) end.
  reflexivity.
Qed.
End FirstCall.

(** The adapter built from boolean flags. *)
Lemma init_boolean_flags model key url t mt (kwargs : gmap string pyval)
    (f_streaming f_stream : option bool) :
  kwargs !! "streaming" = PBool <$> f_streaming ->
  kwargs !! "stream" = PBool <$> f_stream ->
  init model (Some key) url t mt kwargs
  = Some {| model := model; api_key := Some key; base_url := url;
            temperature := t; max_tokens := mt; request_timeout := 120;
            streaming := default false f_streaming;
            user_wants_streaming :=
              default false f_streaming || default false f_stream;
            _user_stream_setting := default false f_stream;
            parent_kwargs := delete "stream" (delete "streaming" kwargs) |}.
Proof.
  intros H1 H2. unfold init, read_stream. rewrite H1, H2.
  destruct f_streaming as [[]|], f_stream as [[]|]; reflexivity.
Qed.

(** C7 (as amended): with the constructor's ['streaming'] and ['stream']
    and the call's ['stream'] given as booleans or left out, the adapter
    is built, its [user_wants_streaming] is the disjunction of the two
    constructor flags (so [True] wins when they disagree), the flag
    [_generate] resolves is the disjunction of the three, and that flag
    picks the first call: a POST whose body has ["stream": true], or the
    standard call. It does not decide alone whether the streaming path
    is taken: when the flag is false and the standard call fails with a
    server error, the next call is a POST with ["stream": true]. *)
Theorem streaming_flags_resolved model key url t mt
    (kwargs gen_kwargs : gmap string pyval)
    (f_streaming f_stream f_call : option bool) :
  kwargs !! "streaming" = PBool <$> f_streaming ->
  kwargs !! "stream" = PBool <$> f_stream ->
  gen_kwargs !! "stream" = PBool <$> f_call ->
  exists self,
    init model (Some key) url t mt kwargs = Some self
    /\ user_wants_streaming self
       = default false f_streaming || default false f_stream
    /\ wants_streaming self gen_kwargs
       = default false f_streaming || default false f_stream
         || default false f_call
    /\ (forall json_loads up messages stop st,
        exists c l,
          log (snd (primary_attempt json_loads up self messages stop gen_kwargs st))
          = log st ++ c :: l
          /\ if wants_streaming self gen_kwargs
             then exists url headers data timeout,
                    c = PostCall url headers data timeout
                    /\ data !! "stream" = Some (PBool true)
             else c = StdCall messages stop gen_kwargs)
    /\ (forall json_loads up tracking messages stop st msg,
        let kw := delete "analysis_type" (delete "session_id" gen_kwargs) in
        wants_streaming self gen_kwargs = false ->
        reply_std up (log st) (StdCall messages stop kw) = Raised msg ->
        is_token_parse_error (Exception msg) = false ->
        is_server_error (Exception msg) = true ->
        exists url headers data timeout l,
          log (snd (_generate json_loads up tracking self messages stop
                      gen_kwargs st))
          = log st ++ StdCall messages stop kw
                   :: PostCall url headers data timeout :: l
          /\ data !! "stream" = Some (PBool true)).
Proof.
  intros H1 H2 H3. rewrite (init_boolean_flags _ _ _ _ _ _ _ _ H1 H2).
  eexists. split; [reflexivity|]. cbn [user_wants_streaming].
  split; [reflexivity|].
  assert (Hw : forall kw : gmap string pyval,
            kw !! "stream" = PBool <$> f_call ->
            wants_streaming
              {| model := model; api_key := Some key; base_url := url;
                 temperature := t; max_tokens := mt; request_timeout := 120;
                 streaming := default false f_streaming;
                 user_wants_streaming :=
                   default false f_streaming || default false f_stream;
                 _user_stream_setting := default false f_stream;
                 parent_kwargs := delete "stream" (delete "streaming" kwargs) |} kw
            = default false f_streaming || default false f_stream
              || default false f_call).
  { intros kw Hkw. unfold wants_streaming. rewrite Hkw.
    cbn [user_wants_streaming].
    destruct f_call as [[]|]; cbn;
      rewrite ?orb_true_r, ?orb_false_r; reflexivity. }
  split; [apply Hw, H3|].
  split; [intros; eapply primary_first_call; reflexivity|].
  intros json_loads up tracking messages stop st msg Hno Hreply Hparse Hserver.
  apply (generate_server_error_fallback json_loads up tracking _ messages stop
           gen_kwargs st msg key); try assumption; [reflexivity|].
  rewrite Hw; [rewrite <- (Hw gen_kwargs H3); exact Hno|].
  rewrite !lookup_delete_ne by discriminate. exact H3.
Qed.

(** [streaming=False, stream=True]: streaming is wanted. *)
Lemma streaming_flags_resolved_witness :
  exists self,
    init "m" (Some "k") "http://x" (1 # 10) (Some 2000)
      {["streaming" := PBool false; "stream" := PBool true]} = Some self
    /\ user_wants_streaming self = true.
Proof.
  destruct (streaming_flags_resolved "m" "k" "http://x" (1 # 10) (Some 2000)
              {["streaming" := PBool false; "stream" := PBool true]} ∅
              (Some false) (Some true) None)
    as (self & Hinit & Hwants & _); [vm_compute; reflexivity ..|].
  exists self. split; [exact Hinit | exact Hwants].
Defined.

(** Neither flag is set and the resolved flag is false, yet the streaming
    path is taken: the standard call fails with a server error and the
    next call is a POST with ["stream": true], followed by the two calls
    of the replay measurement. *)
Lemma fallback_streams_without_flags :
  exists self,
    init "m" (Some "k") "http://x" (1 # 10) (Some 2000) ∅ = Some self
    /\ user_wants_streaming self = false
    /\ wants_streaming self ∅ = false
    /\ exists url headers data timeout rest,
         log (snd (_generate sc_loads sc_server_error true self
                     sc_messages None ∅ st0))
         = StdCall sc_messages None ∅ :: PostCall url headers data timeout :: rest
         /\ data !! "stream" = Some (PBool true)
         /\ length rest = 2%nat.
Proof.
  eexists. split; [vm_compute; reflexivity|].
  split; [reflexivity|]. split; [vm_compute; reflexivity|].
  eexists _, _, _, _, _. split; [vm_compute; reflexivity|].
  split; vm_compute; reflexivity.
Qed.

(** C10 (as amended): a ['stream'] option that is not a boolean counts as
    absent at construction (the adapter built is the one built without
    it), and at generation time it does not turn streaming on; but there
    it is not discarded: without streaming, the standard call receives
    the caller's options with ['stream'] still bound to that value. *)
Theorem non_boolean_stream_ignored model key url t mt
    (kwargs gen_kwargs : gmap string pyval) (v : pyval) :
  (forall b, v <> PBool b) ->
  init model key url t mt (<["stream" := v]> kwargs)
  = init model key url t mt (delete "stream" kwargs)
  /\ forall self,
      wants_streaming self (<["stream" := v]> gen_kwargs)
      = user_wants_streaming self
      /\ (user_wants_streaming self = false ->
          forall json_loads up tracking messages stop st,
          exists kw l,
            log (snd (_generate json_loads up tracking self messages stop
                        (<["stream" := v]> gen_kwargs) st))
            = log st ++ StdCall messages stop kw :: l
            /\ kw !! "stream" = Some v).
Proof.
  intros Hv.
  assert (Hread : forall kw : gmap string pyval,
            (<["stream" := v]> kw) !! "stream" = Some v)
    by (intros; apply lookup_insert_eq).
  split.
  - unfold init, read_stream. rewrite Hread, lookup_delete_eq.
    rewrite lookup_insert_ne, lookup_delete_ne by discriminate.
    replace (delete "stream" (delete "streaming" (<["stream":=v]> kwargs)))
      with (delete "stream" (delete "streaming" (delete "stream" kwargs))).
    + destruct v; try reflexivity. destruct (Hv b). reflexivity.
    + apply map_eq. intros k.
      destruct (decide (k = "stream")) as [->|Hk];
        [rewrite !lookup_delete_eq; reflexivity|].
      rewrite !(lookup_delete_ne _ "stream") by congruence.
      destruct (decide (k = "streaming")) as [->|Hk'];
        [rewrite !lookup_delete_eq; reflexivity|].
      rewrite !(lookup_delete_ne _ "streaming") by congruence.
      rewrite (lookup_delete_ne _ "stream") by congruence.
      rewrite lookup_insert_ne by congruence. reflexivity.
  - intros self.
    assert (Hw : forall kw : gmap string pyval,
              kw !! "stream" = Some v ->
              wants_streaming self kw = user_wants_streaming self).
    { intros kw Hkw. unfold wants_streaming. rewrite Hkw.
      destruct v as [|[]| | | | |]; try reflexivity. destruct (Hv true). reflexivity. }
    split; [apply Hw, Hread|].
    intros Hno json_loads up tracking messages stop st.
    set (kw := delete "analysis_type" (delete "session_id" (<["stream":=v]> gen_kwargs))).
    assert (Hkw : kw !! "stream" = Some v).
    { unfold kw. rewrite !lookup_delete_ne by discriminate. apply Hread. }
    destruct (generate_first_std json_loads up tracking self messages stop
                (<["stream":=v]> gen_kwargs) st) as [l Hl].
    { fold kw. rewrite (Hw kw Hkw). exact Hno. }
    exists kw, l. split; [exact Hl | exact Hkw].
Qed.

(** [stream="yes"] at construction. *)
Lemma non_boolean_stream_ignored_witness :
  init "m" (Some "k") "http://x" (1 # 10) (Some 2000) (<["stream" := PStr "yes"]> ∅)
  = init "m" (Some "k") "http://x" (1 # 10) (Some 2000) (delete "stream" ∅).
Proof.
  apply (non_boolean_stream_ignored "m" (Some "k") "http://x" (1 # 10) (Some 2000)
           ∅ ∅ (PStr "yes")).
  intros b. discriminate.
Defined.

(** [stream="yes"] at generation time reaches the standard call. *)
Lemma non_boolean_stream_forwarded :
  log (snd (_generate sc_loads (scripted [Returned (ChatResult (u "ok") None)] [])
              true (sc_self false) sc_messages None
              {["stream" := PStr "yes"]} st0))
  = [StdCall sc_messages None {["stream" := PStr "yes"]}].
Proof. vm_compute. reflexivity. Qed.

(** C9 (as amended): the three filter functions return their argument.
    Every standard call [_generate] makes carries the caller's options
    as given, less ['session_id'] and ['analysis_type']; every request
    of the direct path has a body of core fields only ([model],
    [messages], [temperature], [stream], [max_tokens]) and carries no
    other option of the caller. *)
Theorem options_pass_through json_loads up tracking self messages stop
    (kwargs : gmap string pyval) st :
  _filter_safe_kwargs kwargs = kwargs
  /\ _filter_model_kwargs kwargs = kwargs
  /\ (forall model_name, _filter_model_kwargs_predefined kwargs model_name = kwargs)
  /\ exists l,
      log (snd (_generate json_loads up tracking self messages stop kwargs st))
      = log st ++ l
      /\ Forall (fun c =>
                   match c with
                   | StdCall _ stop' kwargs' =>
                       stop' = stop
                       /\ kwargs' = delete "analysis_type" (delete "session_id" kwargs)
                   | PostCall _ _ data _ =>
                       forall k, k ∉ core_fields -> data !! k = None
                   end) l.
Proof.
  split; [reflexivity|]. split.
  { unfold _filter_model_kwargs. destruct (decide (size kwargs = 0%nat)) as [H|_];
      [|reflexivity]. apply map_size_empty_iff in H. congruence. }
  split; [reflexivity|].
  destruct (generate_trace json_loads up tracking self messages stop kwargs st)
    as (r & l & last & tr & -> & Hl & _).
  exists l. split; [reflexivity | exact Hl].
Qed.

(** A streamed request with [top_p=0.9]: no request body has [top_p]. *)
Lemma direct_path_drops_options :
  let kwargs : gmap string pyval := {["top_p" := PFloat (9 # 10)]} in
  exists url headers data timeout rest,
    log (snd (_generate sc_loads (sc_replay 40 25) true (sc_self true)
                sc_messages None kwargs st0))
    = PostCall url headers data timeout :: rest
    /\ kwargs !! "top_p" = Some (PFloat (9 # 10))
    /\ data !! "top_p" = None
    /\ Forall (fun c => match c with
                        | PostCall _ _ data' _ => data' !! "top_p" = None
                        | StdCall _ _ _ => False
                        end) rest.
Proof.
  eexists _, _, _, _, _. split; [vm_compute; reflexivity|].
  split; [reflexivity|]. split; [vm_compute; reflexivity|].
  repeat constructor.
Qed.

(** C3 (as amended): one call of [_generate] makes at most five attempts
    on the upstream service, of which at most two are calls of the
    standard path (each counted as one attempt). *)
Theorem attempts_bounded json_loads up tracking self messages stop kwargs st :
  exists l,
    log (snd (_generate json_loads up tracking self messages stop kwargs st))
    = log st ++ l
    /\ (length l <= 5)%nat
    /\ (length (List.filter is_std l) <= 2)%nat.
Proof.
  destruct (generate_trace json_loads up tracking self messages stop kwargs st)
    as (r & l & last & tr & -> & _ & Hlen & Hstd).
  exists l. split; [reflexivity|]. split; assumption.
Qed.

(** Parse error, failed retry, streamed fallback, two replay calls. *)
Lemma five_attempts :
  length (log (snd (_generate sc_loads sc_parse_twice true (sc_self false)
                      sc_messages None ∅ st0))) = 5%nat
  /\ List.map is_std
       (log (snd (_generate sc_loads sc_parse_twice true (sc_self false)
                    sc_messages None ∅ st0)))
     = [true; true; false; false; false].
Proof. vm_compute. split; reflexivity. Qed.

(** C2 (as amended): when the first attempt fails with a token-parse
    error, the standard call is retried once with every message cleaned
    by [_clean_message_content] (the light level). If the retry returns,
    its result is the result and no further attempt is made. If the
    retry raises, whatever the error, the direct call is made with the
    original messages, and its outcome is the outcome; the standard path
    is not tried again. *)
Theorem parse_error_retry json_loads up tracking self messages stop kwargs st e st1 :
  let kw := delete "analysis_type" (delete "session_id" kwargs) in
  let retry := StdCall (clean_for_retry <$> messages) stop kw in
  let st2 := State (log st1 ++ [retry]) (_last_api_usage st1) (tracked st1) in
  let run := _generate json_loads up tracking self messages stop kwargs st in
  primary_attempt json_loads up self messages stop kw st = (inl e, st1) ->
  is_token_parse_error e = true ->
  (msg_content <$> (clean_for_retry <$> messages)
   = (fun msg => _clean_message_content (msg_content msg)) <$> messages)
  /\ exists l,
      log (snd run) = log st1 ++ retry :: l
      /\ Forall direct_call l
      /\ match reply_std up (log st1) retry with
         | Returned res => l = [] /\ fst run = inr res
         | Raised _ =>
             fst run = fst (_direct_api_call json_loads up self messages true st2)
             /\ log (snd run)
                = log (snd (_direct_api_call json_loads up self messages true st2))
         end.
Proof.
  intros kw retry st2 run Hprimary Hparse. split.
  { rewrite <- list_fmap_compose. reflexivity. }
  assert (Hrun : run =
    match reply_std up (log st1) retry with
    | Returned res => (track tracking messages res ;;; ret res) st2
    | Raised _ =>
        match _direct_api_call json_loads up self messages true st2 with
        | (inr res, st3) => (track tracking messages res ;;; ret res) st3
        | (inl e', st3) => (inl e', st3)
        end
    end).
  { unfold run, _generate. fold kw.
    unfold bind at 1. unfold try_catch, bind at 1. rewrite Hprimary.
    unfold recover. rewrite Hparse.
    unfold bind at 1. unfold try_catch, call_std. fold retry st2.
    destruct (reply_std up (log st1) retry); [reflexivity|].
    destruct (_direct_api_call json_loads up self messages true st2) as [[e'|res] st3];
      reflexivity. }
  clearbody run. subst run.
  destruct (reply_std up (log st1) retry) as [res|msg].
  - unfold bind, ret.
    destruct (track_trace tracking messages res st2) as (last & tr & ->).
    exists []. cbn [fst snd log st2].
    split; [reflexivity|]. split; [constructor|]. split; reflexivity.
  - destruct (direct_trace json_loads up self messages true st2)
      as (r & l & last & Hd & Hl & _). rewrite Hd. cbn [log tracked st2 fst snd].
    rewrite <- app_assoc. cbn [app].
    exists l. destruct r as [e'|res].
    + split; [reflexivity|]. split; [assumption|]. split; reflexivity.
    + unfold bind, ret.
      destruct (track_trace tracking messages res
                  (State (log st1 ++ retry :: l) last (tracked st1)))
        as (last' & tr' & ->). cbn [fst snd log].
      split; [reflexivity|]. split; [assumption|]. split; reflexivity.
Qed.

(** Two parse errors in a row, then the direct call. *)
Lemma parse_error_retry_witness :
  exists l,
    log (snd (_generate sc_loads sc_parse_twice true (sc_self false)
                sc_messages None ∅ st0))
    = [StdCall sc_messages None ∅]
        ++ StdCall (clean_for_retry <$> sc_messages) None
             (delete "analysis_type" (delete "session_id" ∅)) :: l
    /\ Forall direct_call l.
Proof.
  destruct (parse_error_retry sc_loads sc_parse_twice true (sc_self false)
              sc_messages None ∅ st0
              (Exception "Unexpected token 5 while expecting start token 7")
              (State [StdCall sc_messages None ∅] None []))
    as (_ & l & Hlog & Hl & _); [vm_compute; reflexivity ..|].
  exists l. split; [exact Hlog | exact Hl].
Defined.

(** After two parse errors the request still succeeds, through the direct
    path, with the answer "AB"; the retry carried the text as the light
    cleaner leaves it, where the aggressive one gives "hi". *)
Lemma second_parse_error_falls_back :
  let run := _generate sc_loads sc_parse_twice true (sc_self false)
               sc_messages None ∅ st0 in
  reply_std sc_parse_twice [] (StdCall sc_messages None ∅) = parse_error
  /\ reply_std sc_parse_twice [StdCall sc_messages None ∅]
       (StdCall (clean_for_retry <$> sc_messages) None ∅) = parse_error
  /\ is_token_parse_error
       (Exception "Unexpected token 5 while expecting start token 7") = true
  /\ fst run = inr (ChatResult (u "AB") None)
  /\ List.map is_std (log (snd run)) = [true; true; false; false; false]
  /\ nth_error (log (snd run)) 1
     = Some (StdCall [Message "human" None (u "**hi**")] None ∅)
  /\ aggressive_clean_content "user" (u "**hi**") = u "hi"
  /\ u "hi" <> u "**hi**".
Proof. vm_compute. repeat split; discriminate. Qed.

(** * Further properties of the adapter *)

Set Warnings "-clear-no-such-hyp".

(** ** More on [_clean_message_content] *)

Lemma clean_message_content_is_clean m : clean (_clean_message_content m).
Proof.
  unfold _clean_message_content, truncate_content.
  pose proof (ensure_content_clean m) as Hc.
  destruct (max_length <? length (ensure_content (normalize_content m)))%nat;
    [apply truncated_clean, Hc | exact Hc].
Qed.

Lemma clean_message_content_length m :
  (length (_clean_message_content m) <= max_length + length truncation_marker)%nat.
Proof.
  unfold _clean_message_content, truncate_content.
  destruct (Nat.ltb_spec max_length (length (ensure_content (normalize_content m)))).
  - rewrite length_app, length_take. lia.
  - lia.
Qed.

(** X1: whatever the input, the text [_clean_message_content] returns has
    no zero-width space, byte-order mark or carriage return, no run of
    three line feeds and no run of three blanks, no white space at
    either end; it is never empty and never longer than 8000 characters
    plus the truncation marker. *)
Theorem cleaned_content_shape (m : str) :
  let out := _clean_message_content m in
  Forall (fun c => c <> ZWSP /\ c <> BOM /\ c <> CR) out
  /\ has_run3 is_newline out = false
  /\ has_run3 is_blank out = false
  /\ strip out = out
  /\ (1 <= length out <= max_length + length truncation_marker)%nat.
Proof.
  intros out. destruct (clean_message_content_is_clean m)
    as [Hz Hb Hc Hn Hs Hst He Hne]. fold out in Hz, Hb, Hc, Hn, Hs, Hst, He, Hne.
  split.
  { apply Forall_and. split; [exact Hz|]. apply Forall_and. split; assumption. }
  split; [exact Hn|]. split; [exact Hs|].
  split; [apply strip_fixed; assumption|].
  split; [destruct out; [congruence | simpl; lia]|].
  apply clean_message_content_length.
Qed.

(** X2: a text that already has that shape and at most 8000 characters is
    returned unchanged. *)
Theorem clean_content_untouched (s : str) :
  Forall (fun c => c <> ZWSP /\ c <> BOM /\ c <> CR) s ->
  has_run3 is_newline s = false ->
  has_run3 is_blank s = false ->
  strip s = s ->
  s <> [] ->
  (length s <= max_length)%nat ->
  _clean_message_content s = s.
Proof.
  intros Hall Hn Hb Hstrip Hne Hlen.
  apply Forall_and in Hall as [Hz Hall]. apply Forall_and in Hall as [Hbom Hcr].
  assert (Hc : clean s).
  { split; try assumption.
    - rewrite <- Hstrip. apply strip_starts_clean.
    - rewrite <- Hstrip. apply strip_ends_clean. }
  rewrite (clean_fixed s Hc). unfold truncate_content.
  destruct (Nat.ltb_spec max_length (length s)); [lia | reflexivity].
Qed.

(** Two blanks and two line feeds are kept. *)
Lemma clean_content_untouched_witness :
  _clean_message_content (u "buy  AAPL" ++ [LF; LF] ++ u "now") 
  = u "buy  AAPL" ++ [LF; LF] ++ u "now".
Proof.
  apply clean_content_untouched; try (vm_compute; reflexivity).
  - repeat constructor; discriminate.
  - discriminate.
  - vm_compute. lia.
Defined.

Lemma lstrip_all_space s : Forall (fun c => py_isspace c = true) s -> lstrip s = [].
Proof. induction 1 as [|c s Hc _ IH]; [reflexivity|]. simpl. rewrite Hc. exact IH. Qed.

Lemma replace_char_removes (P : N -> Prop) c s :
  Forall (fun x => P x \/ x = c) s -> Forall P (str_replace [c] [] s).
Proof.
  intros H.
  assert (H1 : Forall (fun x => x <> c) (str_replace [c] [] s))
    by (apply replace_char_gone; constructor).
  assert (H2 : Forall (fun x => P x \/ x = c) (str_replace [c] [] s))
    by (apply replace_from_Forall; [constructor | exact H]).
  assert (H3 : Forall (fun x => x <> c /\ (P x \/ x = c)) (str_replace [c] [] s))
    by (apply Forall_and; split; assumption).
  eapply Forall_impl; [exact H3|]. intros x [Hx [Hp|Heq]]; [exact Hp | contradiction].
Qed.

(** X3: a text made only of white space, zero-width spaces and byte-order
    marks (the empty text included) is replaced by the default content. *)
Theorem blank_content_replaced (m : str) :
  Forall (fun c => py_isspace c = true \/ c = ZWSP \/ c = BOM) m ->
  _clean_message_content m = default_content.
Proof.
  intros H.
  assert (Hn : Forall (fun c => py_isspace c = true) (normalize_content m)).
  { unfold normalize_content, sub_runs.
    apply sub_runs_from_Forall; [solve_chars | constructor |].
    apply sub_runs_from_Forall; [solve_chars | constructor |].
    unfold str_replace at 1 2.
    apply replace_from_Forall; [solve_chars|].
    apply replace_from_Forall; [solve_chars|].
    apply replace_char_removes. apply replace_char_removes.
    eapply Forall_impl; [exact H|]. intros x [Hx|[Hx|Hx]]; auto. }
  unfold _clean_message_content, ensure_content, strip.
  rewrite (lstrip_all_space _ Hn). reflexivity.
Qed.

(** A text of blanks, a line feed and a zero-width space. *)
Lemma blank_content_replaced_witness :
  _clean_message_content (u "  " ++ [ZWSP; LF; TAB; BOM; CR; LF]) = default_content.
Proof.
  apply blank_content_replaced.
  repeat constructor; first [left; reflexivity | right; left; reflexivity
                            | right; right; reflexivity].
Defined.

(** ** [_aggressive_clean_messages] *)

Lemma span_not_spec dc s :
  s = fst (span_not dc s) ++ snd (span_not dc s).
Proof.
  induction s as [|c s IH]; [reflexivity|]. simpl.
  destruct (c =? dc)%N; [reflexivity|].
  destruct (span_not dc s) as [a b]. simpl in *. congruence.
Qed.

Lemma sub_delimited_from_Forall (P : N -> Prop) d dc s : forall k,
  Forall P s -> Forall P (sub_delimited_from d dc k s).
Proof.
  induction s as [|c s IH]; intros k Hs; [constructor|].
  pose proof Hs as Hcs. apply Forall_cons in Hs as [Hc Hs].
  cbn [sub_delimited_from]. destruct k as [|k]; [|apply IH, Hs].
  pose proof (span_not_spec dc (drop (length d) (c :: s))) as Hsp.
  destruct (span_not dc (drop (length d) (c :: s))) as [inner after].
  cbn [fst snd] in Hsp.
  destruct (is_prefix d (c :: s) && negb (is_nil inner) && is_prefix d after).
  - apply Forall_app. split; [|apply IH, Hs].
    pose proof (Forall_drop P (length d) _ Hcs) as Hd. rewrite Hsp in Hd.
    apply Forall_app in Hd as [Hd _]. exact Hd.
  - constructor; [exact Hc | apply IH, Hs].
Qed.

Lemma strip_headings_from_Forall (P : N -> Prop) s : forall m,
  Forall P s -> Forall (fun c => P c /\ c <> HASH) (strip_headings_from m s).
Proof.
  induction s as [|c s IH]; intros m Hs; [constructor|].
  apply Forall_cons in Hs as [Hc Hs]. cbn [strip_headings_from].
  destruct (N.eqb_spec c HASH) as [->|Hne]; [apply IH, Hs|].
  destruct m; [constructor; [split; assumption | apply IH, Hs] | |];
    (destruct (py_isspace c); [apply IH, Hs |
       constructor; [split; assumption | apply IH, Hs]]).
Qed.

(** No character of the class: nothing to substitute. *)
Lemma sub_runs_absent p n repl s :
  (1 <= n)%nat -> Forall (fun c => p c = false) s -> sub_runs p n repl s = s.
Proof.
  intros Hn. unfold sub_runs. induction 1 as [|c s Hc _ IH]; simpl.
  - unfold flush. destruct (Nat.leb_spec n (length (@nil N))); [simpl in *; lia | reflexivity].
  - rewrite Hc, IH. unfold flush.
    destruct (Nat.leb_spec n (length (@nil N))); [simpl in *; lia | reflexivity].
Qed.

Lemma safe_not_punctuation c :
  in_safe_alphabet c = true -> is_full_stop c = false /\ is_comma c = false.
Proof.
  unfold in_safe_alphabet, is_full_stop, is_comma, LF. intros H.
  repeat match goal with
         | H : (_ || _) = true |- _ => apply orb_true_iff in H as [H|H]
         | H : (_ && _) = true |- _ => apply andb_true_iff in H as [? ?]
         end;
    repeat match goal with
           | H : (_ <=? _)%N = true |- _ => apply N.leb_le in H
           | H : (_ =? _)%N = true |- _ => apply N.eqb_eq in H
           end;
    split; repeat (apply orb_false_iff; split); apply N.eqb_neq; lia.
Qed.

(** After the first five substitutions only kept characters are left. *)
Lemma markdown_stripped_safe (content0 : str) :
  Forall (fun c => in_safe_alphabet c = true /\ c <> HASH)
    (strip_headings_from Outside
       (sub_delimited [BACKTICK] BACKTICK
          (sub_delimited [STAR] STAR
             (sub_delimited [STAR; STAR] STAR
                (filter (fun c => in_safe_alphabet c = true) content0))))).
Proof.
  apply strip_headings_from_Forall.
  unfold sub_delimited. do 3 apply sub_delimited_from_Forall.
  apply Forall_forall. intros c Hc. apply list_elem_of_filter in Hc as [Hc _].
  exact Hc.
Qed.

Lemma safe_no_full_stop (t : str) :
  Forall (fun c => in_safe_alphabet c = true /\ c <> HASH) t ->
  Forall (fun c => is_full_stop c = false) t.
Proof.
  intros Ht. eapply Forall_impl; [exact Ht|].
  intros c [Hc _]. apply safe_not_punctuation, Hc.
Qed.

Lemma safe_no_comma (t : str) :
  Forall (fun c => in_safe_alphabet c = true /\ c <> HASH) t ->
  Forall (fun c => is_comma c = false) t.
Proof.
  intros Ht. eapply Forall_impl; [exact Ht|].
  intros c [Hc _]. apply safe_not_punctuation, Hc.
Qed.

(** X5: in [_aggressive_clean_messages] the two substitutions that
    collapse repeated Chinese punctuation never change anything: the
    first substitution has already removed every such character. *)
Theorem aggressive_punctuation_inert (content0 : str) :
  let t := strip_headings_from Outside
             (sub_delimited [BACKTICK] BACKTICK
                (sub_delimited [STAR] STAR
                   (sub_delimited [STAR; STAR] STAR
                      (filter (fun c => in_safe_alphabet c = true) content0)))) in
  sub_runs is_comma 2 [0xff0c%N] (sub_runs is_full_stop 2 [0x3002%N] t) = t.
Proof.
  intros t. pose proof (markdown_stripped_safe content0) as Ht. fold t in Ht.
  rewrite (sub_runs_absent is_full_stop 2 _ t);
    [|lia | apply safe_no_full_stop, Ht].
  apply sub_runs_absent; [lia | apply safe_no_comma, Ht].
Qed.

(** X4: the content [_aggressive_clean_messages] gives a message is made of
    characters of the kept alphabet only, has no [#], is never empty and
    has at most 1000 characters plus the three dots. *)
Theorem aggressive_content_shape (msg_role : string) (content0 : str) :
  let out := aggressive_clean_content msg_role content0 in
  Forall (fun c => in_safe_alphabet c = true /\ c <> HASH) out
  /\ (1 <= length out <= aggressive_max_length + 3)%nat.
Proof.
  intros out. unfold out, aggressive_clean_content.
  pose proof (markdown_stripped_safe content0) as Ht.
  set (t := strip_headings_from _ _) in *.
  rewrite (sub_runs_absent is_full_stop 2 _ t);
    [|lia | apply safe_no_full_stop, Ht].
  rewrite (sub_runs_absent is_comma 2 _ t);
    [|lia | apply safe_no_comma, Ht].
  set (s := match strip t with
            | [] => if String.eqb msg_role "user"
                    then [0x8bf7; 0x5206; 0x6790]%N else [0x597d; 0x7684]%N
            | _ => strip t
            end).
  assert (Hs : Forall (fun c => in_safe_alphabet c = true /\ c <> HASH) s
               /\ (1 <= length s)%nat).
  { unfold s. destruct (strip t) as [|c r] eqn:Hst.
    - destruct (String.eqb msg_role "user"); split;
        try (simpl; lia); repeat constructor; discriminate.
    - rewrite <- Hst. split; [apply strip_Forall, Ht | rewrite Hst; simpl; lia]. }
  destruct Hs as [Hs Hlen].
  destruct (Nat.ltb_spec aggressive_max_length (length s)) as [Hlt|Hge].
  - split.
    + apply Forall_app. split; [apply Forall_take, Hs|].
      repeat constructor; discriminate.
    + rewrite length_app, length_take. simpl length. unfold aggressive_max_length in *. lia.
  - split; [exact Hs | lia].
Qed.

(** ** More on the stream decoder *)

Lemma chunk_step_accumulates chunk_data acc :
  chunk_step chunk_data acc
  = match chunk_step chunk_data [] with
    | inr t => inr (acc ++ t)
    | inl e => inl e
    end.
Proof.
  unfold chunk_step.
  repeat case_match; simplify_eq; try reflexivity; rewrite ?app_nil_r; reflexivity.
Qed.

(** X6: the stream decoder only appends: started from a text [acc] it
    gives [acc] followed by what it gives started from the empty text,
    with the same error or the same way of leaving the loop. *)
Theorem decode_lines_accumulates json_loads lines : forall acc,
  decode_lines json_loads lines acc
  = match decode_lines json_loads lines [] with
    | inr (t, done) => inr (acc ++ t, done)
    | inl e => inl e
    end.
Proof.
  induction lines as [|[s|msg] lines IH]; intros acc.
  - simpl. rewrite app_nil_r. reflexivity.
  - rewrite !decode_lines_line.
    destruct (is_nil s); [apply IH|].
    destruct (is_prefix (u "data: ") s); [|apply IH].
    destruct (bool_decide (drop 6 s = u "[DONE]")); [rewrite app_nil_r; reflexivity|].
    destruct (json_loads (drop 6 s)) as [chunk|]; [|apply IH].
    rewrite (chunk_step_accumulates chunk acc).
    destruct (chunk_step chunk []) as [e|t]; [reflexivity|].
    rewrite (IH (acc ++ t)), (IH t).
    destruct (decode_lines json_loads lines []) as [e|[t' done]]; [reflexivity|].
    rewrite app_assoc. reflexivity.
  - reflexivity.
Qed.

Lemma decode_lines_app_from json_loads l1 l2 : forall acc,
  decode_lines json_loads (l1 ++ l2) acc
  = match decode_lines json_loads l1 acc with
    | inr (t, false) => decode_lines json_loads l2 t
    | other => other
    end.
Proof.
  induction l1 as [|[s|msg] l1 IH]; intros acc; [reflexivity | | reflexivity].
  change ((Line s :: l1) ++ l2) with (Line s :: (l1 ++ l2)).
  rewrite !decode_lines_line.
  destruct (is_nil s); [apply IH|].
  destruct (is_prefix (u "data: ") s); [|apply IH].
  destruct (bool_decide (drop 6 s = u "[DONE]")); [reflexivity|].
  destruct (json_loads (drop 6 s)) as [chunk|]; [|apply IH].
  destruct (chunk_step chunk acc); [reflexivity | apply IH].
Qed.

(** X7: decoding goes line by line: the lines [l1 ++ l2] decode as [l2]
    started from the result of [l1], unless [l1] raised or reached
    [data: [DONE]]; so whatever follows [data: [DONE]] is never read. *)
Theorem decode_lines_app json_loads l1 l2 acc :
  decode_lines json_loads (l1 ++ l2) acc
  = match decode_lines json_loads l1 acc with
    | inr (t, false) => decode_lines json_loads l2 t
    | other => other
    end
  /\ decode_lines json_loads (l1 ++ sentinel :: l2) acc
     = decode_lines json_loads (l1 ++ [sentinel]) acc.
Proof.
  split; [apply decode_lines_app_from|].
  rewrite !decode_lines_app_from.
  destruct (decode_lines json_loads l1 acc) as [e|[t []]]; reflexivity.
Qed.

(** ** More on the replay measurement *)

(** X8: the replay measurement never raises and never touches the stored
    usage. Its requests ask for one token without streaming; it makes
    the first one always, and the second one exactly when the first
    reply has status 200 and a usage object. *)
Theorem replay_never_raises up self ms answer headers url t st :
  let c_full := PostCall url headers
                  (counting_request self (ms ++ [ApiMessage "assistant" answer]))
                  (Z.min 15 t) in
  let c_input := PostCall url headers (counting_request self ms) (Z.min 10 t) in
  (forall l, counting_request self l !! "max_tokens" = Some (PInt 1)
             /\ counting_request self l !! "stream" = Some (PBool false))
  /\ exists r,
      _get_accurate_tokens_via_complete_conversation up self ms answer headers url t st
      = (inr r,
         State (log st ++ match usage_of_reply (reply_post up (log st) c_full) with
                          | Some _ => [c_full; c_input]
                          | None => [c_full]
                          end)
               (_last_api_usage st) (tracked st)).
Proof.
  intros c_full c_input. split.
  { intros l. unfold counting_request. split; by simplify_map_eq. }
  unfold _get_accurate_tokens_via_complete_conversation, _get_input_only_tokens,
    bind, post, ret. rewrite copy_messages. cbn [log _last_api_usage tracked].
  fold c_full. destruct (usage_of_reply (reply_post up (log st) c_full)) as [ua|].
  - cbv beta iota. cbn [log _last_api_usage tracked]. fold c_input.
    rewrite <- app_assoc. cbn [app].
    repeat case_match; eexists; reflexivity.
  - eexists. reflexivity.
Qed.

(** ** More on [_direct_api_call] *)

Lemma received_responded (o : post_outcome) (resp : response) :
  received o = inr resp -> o = Responded resp.
Proof. destruct o; simpl; intros H; simplify_eq; reflexivity. Qed.

(** X9: when [_direct_api_call] raises, the tracker is as before the
    call and at most one request has been made when streaming, at most
    two otherwise. The stored usage is as before the call too, unless
    the call was not streamed and raised while it read a first reply of
    status 200: a reply whose content is no text has the figures of its
    usage object stored before [len(content)] raises. *)
Theorem direct_call_failure_frame json_loads up self messages stream st e st' :
  _direct_api_call json_loads up self messages stream st = (inl e, st') ->
  tracked st' = tracked st
  /\ (exists l, log st' = log st ++ l
                /\ (length l <= if stream then 1 else 2)%nat)
  /\ (_last_api_usage st' = _last_api_usage st
      \/ stream = false
         /\ exists key resp,
              let c := PostCall (base_url self ++ "/chat/completions")%string
                         (request_headers key)
                         (request_body self (to_api_message <$> messages) false)
                         (request_timeout self) in
              api_key self = Some key
              /\ reply_post up (log st) c = Responded resp
              /\ status_code resp = 200
              /\ log st' = log st ++ [c]).
Proof.
  unfold _direct_api_call. destruct (api_key self) as [key|].
  2: { unfold raise. intros H. simplify_eq. split; [reflexivity|].
       split; [|left; reflexivity].
       exists []. rewrite app_nil_r. split; [reflexivity|]. destruct stream; simpl; lia. }
  unfold read_body, _get_accurate_tokens_via_complete_conversation,
    _get_input_only_tokens, bind, post, ret, raise, set_last_api_usage.
  intros H. repeat case_match; simplify_eq; cbn [log _last_api_usage tracked];
    (split; [reflexivity|]);
    (split; [rewrite <- ?app_assoc; eexists; (split; [reflexivity|]); simpl; lia|]);
    first [ left; reflexivity
          | right; split; [reflexivity|];
            eexists _, _; cbv zeta; split; [reflexivity|];
            split; [apply received_responded; eassumption|];
            split; [apply Z.eqb_eq; assumption | reflexivity] ].
Qed.

Section DirectFacts.
Variable json_loads : str -> option json.
Variable up : upstream.
Variable self : adapter.

(** The request of a non-streamed call. *)
Lemma direct_call_first_reply messages st key resp :
  let api_messages := to_api_message <$> messages in
  let c := PostCall (base_url self ++ "/chat/completions")%string
             (request_headers key) (request_body self api_messages false)
             (request_timeout self) in
  api_key self = Some key ->
  reply_post up (log st) c = Responded resp ->
  (status_code resp =? 200) = false ->
  _direct_api_call json_loads up self messages false st
  = (res <- (if contains "Unexpected token" (text resp)
                && contains "while expecting start token" (text resp)
             then
               let cleaned_messages := _aggressive_clean_messages api_messages in
               if decide (cleaned_messages = api_messages) then ret None
               else
                 r' <- post up (base_url self ++ "/chat/completions")%string
                         (request_headers key)
                         (<["messages" := PMessages cleaned_messages]>
                            (request_body self api_messages false))
                         (request_timeout self) ;;
                 match received r' with
                 | inl e => raise e
                 | inr retry_response =>
                     if status_code retry_response =? 200 then
                       res <- read_body retry_response api_messages false ;;
                       ret (Some res)
                     else ret None
                 end
             else ret None) ;;
     match res with
     | Some res => ret res
     | None => raise (status_error resp)
     end)
      (State (log st ++ [c]) (_last_api_usage st) (tracked st)).
Proof.
  intros api_messages c Hkey Hreply Hstatus.
  unfold _direct_api_call. rewrite Hkey. fold api_messages.
  unfold bind at 1. unfold post at 1. fold c. rewrite Hreply. cbn [received].
  rewrite Hstatus. reflexivity.
Qed.
End DirectFacts.

(** X10: a non-streamed request answered with a status other than 200 is
    not retried when the reply lacks the parse-error signature, or when
    the aggressive cleaning changes no message: exactly one request is
    made and the exception is the one chosen from the status code. *)
Theorem direct_call_no_retry json_loads up self messages st key resp :
  let api_messages := to_api_message <$> messages in
  let c := PostCall (base_url self ++ "/chat/completions")%string
             (request_headers key) (request_body self api_messages false)
             (request_timeout self) in
  api_key self = Some key ->
  reply_post up (log st) c = Responded resp ->
  status_code resp <> 200 ->
  contains "Unexpected token" (text resp)
    && contains "while expecting start token" (text resp) = false
  \/ _aggressive_clean_messages api_messages = api_messages ->
  _direct_api_call json_loads up self messages false st
  = (inl (status_error resp),
     State (log st ++ [c]) (_last_api_usage st) (tracked st)).
Proof.
  intros api_messages c Hkey Hreply Hstatus Hno.
  rewrite (direct_call_first_reply json_loads up self messages st key resp Hkey Hreply)
    by (apply Z.eqb_neq, Hstatus).
  fold api_messages. unfold bind.
  destruct (contains "Unexpected token" (text resp)
            && contains "while expecting start token" (text resp)) eqn:Hsig;
    [|reflexivity].
  destruct Hno as [Hno|Hno]; [discriminate|]. cbv zeta.
  destruct (decide (_aggressive_clean_messages api_messages = api_messages));
    [reflexivity | contradiction].
Qed.

(** X11: with the parse-error signature and messages the aggressive
    cleaning changes, the request is sent once more, the same but for
    its messages. A reply with status 200 gives the answer, if it has a
    text, and stores no usage; any other status raises the exception of
    the first reply, not of the retry. *)
Theorem direct_call_aggressive_retry json_loads up self messages st key resp resp' :
  let api_messages := to_api_message <$> messages in
  let url := (base_url self ++ "/chat/completions")%string in
  let c := PostCall url (request_headers key) (request_body self api_messages false)
                    (request_timeout self) in
  let c' := PostCall url (request_headers key)
              (<["messages" := PMessages (_aggressive_clean_messages api_messages)]>
                 (request_body self api_messages false))
              (request_timeout self) in
  let st2 := State (log st ++ [c; c']) (_last_api_usage st) (tracked st) in
  api_key self = Some key ->
  reply_post up (log st) c = Responded resp ->
  status_code resp <> 200 ->
  contains "Unexpected token" (text resp)
    && contains "while expecting start token" (text resp) = true ->
  _aggressive_clean_messages api_messages <> api_messages ->
  reply_post up (log st ++ [c]) c' = Responded resp' ->
  _direct_api_call json_loads up self messages false st
  = if status_code resp' =? 200 then
      match json_data resp' with
      | inr (Body (Some answer) _) => (inr (ChatResult answer None), st2)
      | inr (Body None _) => (inl (PyError "KeyError"), st2)
      | inr (NoText _) => (inl (PyError "TypeError"), st2)
      | inl msg => (inl (Exception ("网络请求错误：" ++ msg)), st2)
      end
    else (inl (status_error resp), st2).
Proof.
  intros api_messages url c c' st2 Hkey Hreply Hstatus Hsig Hchg Hreply'.
  rewrite (direct_call_first_reply json_loads up self messages st key resp Hkey Hreply)
    by (apply Z.eqb_neq, Hstatus).
  fold api_messages url. rewrite Hsig. cbv zeta.
  destruct (decide (_aggressive_clean_messages api_messages = api_messages));
    [contradiction|].
  unfold bind, post. cbn [log _last_api_usage tracked]. fold c c'. rewrite Hreply'.
  cbn [received]. rewrite <- app_assoc. cbn [app]. fold st2.
  destruct (status_code resp' =? 200); [|reflexivity].
  unfold read_body. destruct (json_data resp') as [msg|[[answer|] us|us]]; reflexivity.
Qed.

(** A reply whose content is [null], with the usage 12, 5: the call
    raises after one request, the tracker is untouched and the stored
    usage is no longer the one before the call. *)
Lemma direct_call_failure_frame_witness :
  let run := _direct_api_call sc_loads sc_null_content (sc_self false)
               sc_messages false st0 in
  fst run = inl (PyError "TypeError")
  /\ _last_api_usage (snd run) = Some (Usage 12 5 0)
  /\ tracked (snd run) = tracked st0
  /\ exists l, log (snd run) = log st0 ++ l /\ (length l <= 2)%nat.
Proof.
  intros run. split; [vm_compute; reflexivity|].
  split; [vm_compute; reflexivity|].
  destruct (direct_call_failure_frame sc_loads sc_null_content (sc_self false)
              sc_messages false st0 (PyError "TypeError") (snd run))
    as (Htr & Hlog & _).
  - vm_compute. reflexivity.
  - split; [exact Htr | exact Hlog].
Defined.

(** A non-streamed request answered with 404. *)
Lemma direct_call_no_retry_witness :
  exists c,
    _direct_api_call sc_loads (scripted [] [not_found]) (sc_self false)
      sc_messages false st0
    = (inl (Exception "未知错误 (404)：not found"), State [c] None []).
Proof.
  eexists.
  refine (eq_trans
            (direct_call_no_retry sc_loads (scripted [] [not_found]) (sc_self false)
               sc_messages st0 "k"
               (Response 404 "not found" (inl "not JSON") [] None) _ _ _ _) _).
  - reflexivity.
  - vm_compute. reflexivity.
  - discriminate.
  - left. vm_compute. reflexivity.
  - vm_compute. reflexivity.
Defined.

(** The retry succeeds: two requests that differ, no usage stored. *)
Lemma direct_call_aggressive_retry_witness :
  exists c c',
    _direct_api_call sc_loads sc_retry_ok (sc_self false) sc_messages false st0
    = (inr (ChatResult (u "ok") None), State [c; c'] None [])
    /\ c <> c'.
Proof.
  eexists _, _. split.
  - refine (eq_trans
              (direct_call_aggressive_retry sc_loads sc_retry_ok (sc_self false)
                 sc_messages st0 "k" parse_rejected
                 (Response 200 "" (inr (Body (Some (u "ok")) (Some {["prompt_tokens" := 12]})))
                    [] None) _ _ _ _ _ _) _).
    + reflexivity.
    + vm_compute. reflexivity.
    + discriminate.
    + vm_compute. reflexivity.
    + vm_compute. discriminate.
    + vm_compute. reflexivity.
    + vm_compute. reflexivity.
  - vm_compute. discriminate.
Defined.

(** ** More on [_generate] *)

Section GenerateFacts.
Variable json_loads : str -> option json.
Variable up : upstream.
Variable TOKEN_TRACKING_ENABLED : bool.
Variable self : adapter.

(** What the accounting changes: it may clear the stored usage and may
    hand one record to the tracker. *)
Lemma track_effect messages result st :
  exists last tr,
    track TOKEN_TRACKING_ENABLED messages result st = (inr tt, State (log st) last tr)
    /\ (last = _last_api_usage st \/ last = None)
    /\ (tr = tracked st
        \/ exists i o, TOKEN_TRACKING_ENABLED = true /\ (0 < i \/ 0 < o)
                       /\ tr = tracked st ++ [(i, o)]).
Proof.
  destruct st as [l last tr].
  unfold track, bind, ret, get_last_api_usage, set_last_api_usage, track_usage.
  repeat case_match; simplify_eq; simpl in *; simplify_eq;
    eexists _, _; (split; [reflexivity|]); (split; [auto|]);
    first [ left; reflexivity
          | right; refine (ex_intro _ _ (ex_intro _ _ (conj eq_refl (conj _ eq_refl))));
            first [ match goal with
                    | H : (0 <? _) || (0 <? _) = true |- _ =>
                        apply orb_true_iff in H; destruct H as [H|H];
                        apply Z.ltb_lt in H; auto
                    end
                  | pose proof (estimate_tokens_pos 0); lia ] ].
Qed.

(** A result of the direct call carries no usage of its own. *)
Lemma direct_result_no_usage messages stream st r st' :
  _direct_api_call json_loads up self messages stream st = (inr r, st') ->
  llm_token_usage r = None.
Proof.
  unfold _direct_api_call. destruct (api_key self) as [key|]; [|discriminate].
  unfold read_body, _get_accurate_tokens_via_complete_conversation,
    _get_input_only_tokens, bind, post, ret, raise, set_last_api_usage.
  intros H. repeat case_match; simplify_eq; reflexivity.
Qed.

(** The attempts leave the tracker alone. *)
Lemma attempts_outcome messages stop kw st :
  exists o l last,
    try_catch (result <- primary_attempt json_loads up self messages stop kw ;;
               ret (inr result))
              (recover json_loads up self messages stop kw) st
    = (o, State (log st ++ l) last (tracked st)).
Proof.
  unfold try_catch, bind at 1.
  destruct (primary_trace json_loads up self messages stop kw st)
    as (o & l & last & -> & _).
  destruct o as [e|res].
  - destruct (recover_trace json_loads up self messages stop kw e
                (State (log st ++ l) last (tracked st)))
      as (o' & l' & last' & -> & _). cbn [log tracked].
    rewrite <- app_assoc. eauto.
  - unfold ret. eauto.
Qed.
End GenerateFacts.

(** X13: one call of [_generate] hands at most one record to the token
    tracker, and none when it raises or when tracking is not enabled; a
    record tracked has a positive count. *)
Theorem generate_tracks_at_most_once json_loads up tracking self messages stop kwargs st :
  let run := _generate json_loads up tracking self messages stop kwargs st in
  tracked (snd run) = tracked st
  \/ exists i o,
       tracking = true /\ ~ raised (fst run) /\ (0 < i \/ 0 < o)
       /\ tracked (snd run) = tracked st ++ [(i, o)].
Proof.
  intros run.
  assert (H : exists r st',
             run = (r, st')
             /\ (tracked st' = tracked st
                 \/ exists i o,
                      tracking = true /\ ~ raised r /\ (0 < i \/ 0 < o)
                      /\ tracked st' = tracked st ++ [(i, o)])).
  { subst run. unfold _generate. unfold bind at 1.
    destruct (attempts_outcome json_loads up self messages stop
                (delete "analysis_type" (delete "session_id" kwargs)) st)
      as (o & l & last & ->).
    destruct o as [e|[res|res]];
      [eexists _, _; (split; [reflexivity|]); left; reflexivity .. |].
    unfold bind, ret.
    destruct (track_effect tracking messages res (State (log st ++ l) last (tracked st)))
      as (last' & tr' & -> & _ & [->|(i & o & Ht & Hio & ->)]);
      eexists _, _; (split; [reflexivity|]); [left; reflexivity|].
    right. exists i, o. cbn [tracked].
    split; [exact Ht|]. split; [intros Hr; exact Hr|]. split; [exact Hio | reflexivity]. }
  destruct H as (r & st' & -> & H). exact H.
Qed.

Section GenerateRuns.
Variable json_loads : str -> option json.
Variable up : upstream.
Variable TOKEN_TRACKING_ENABLED : bool.
Variable self : adapter.
Variable messages : list message.
Variable stop : option (list string).
Variable kwargs : gmap string pyval.


(** [_generate] once the first attempt has returned. *)
Lemma generate_after_success st res st1 :
  primary_attempt json_loads up self messages stop
    (delete "analysis_type" (delete "session_id" kwargs)) st = (inr res, st1) ->
  _generate json_loads up TOKEN_TRACKING_ENABLED self messages stop kwargs st
  = (track TOKEN_TRACKING_ENABLED messages res ;;; ret res) st1.
Proof.
  intros H. unfold _generate.
  unfold bind at 1. unfold try_catch. unfold bind at 1. rewrite H. reflexivity.
Qed.

(** [_generate] once the first attempt has raised. *)
Lemma generate_after_failure st e st1 :
  primary_attempt json_loads up self messages stop
    (delete "analysis_type" (delete "session_id" kwargs)) st = (inl e, st1) ->
  _generate json_loads up TOKEN_TRACKING_ENABLED self messages stop kwargs st
  = (outcome <- recover json_loads up self messages stop
    (delete "analysis_type" (delete "session_id" kwargs)) e ;;
     match outcome with
     | inl error_response => ret error_response
     | inr result => track TOKEN_TRACKING_ENABLED messages result ;;; ret result
     end) st1.
Proof.
  intros H. unfold _generate.
  unfold bind at 1. unfold try_catch. unfold bind at 1. rewrite H.
  unfold bind at 2. reflexivity.
Qed.


(** A streamed request that gets no reply. *)
Lemma direct_stream_unanswered st key o e :
  let c := PostCall (base_url self ++ "/chat/completions")%string
             (request_headers key)
             (request_body self (to_api_message <$> messages) true)
             (request_timeout self) in
  api_key self = Some key ->
  reply_post up (log st) c = o ->
  received o = inl e ->
  _direct_api_call json_loads up self messages true st
  = (inl e, State (log st ++ [c]) (_last_api_usage st) (tracked st)).
Proof.
  intros c Hkey Hreply He.
  unfold _direct_api_call. rewrite Hkey.
  unfold bind at 1. unfold post. fold c. rewrite Hreply, He. reflexivity.
Qed.
End GenerateRuns.


(** X15: a streamed request that times out or cannot connect is not
    retried: [_generate] raises the exception of [_direct_api_call]
    after that one request. *)
Theorem stream_timeout_not_retried json_loads up tracking self messages stop kwargs st
    key :
  let kw := delete "analysis_type" (delete "session_id" kwargs) in
  let c := PostCall (base_url self ++ "/chat/completions")%string
             (request_headers key)
             (request_body self (to_api_message <$> messages) true)
             (request_timeout self) in
  wants_streaming self kw = true ->
  api_key self = Some key ->
  reply_post up (log st) c = Timeout \/ reply_post up (log st) c = ConnectionError ->
  _generate json_loads up tracking self messages stop kwargs st
  = (inl match reply_post up (log st) c with
         | Timeout => Exception "请求超时：网络连接问题或服务器响应过慢"
         | _ => Exception "连接错误：无法连接到API服务器"
         end,
     State (log st ++ [c]) (_last_api_usage st) (tracked st)).
Proof.
  intros kw c Hw Hkey Hreply.
  assert (H1 : exists e,
             received (reply_post up (log st) c) = inl e
             /\ is_token_parse_error e = false /\ is_server_error e = false
             /\ e = match reply_post up (log st) c with
                    | Timeout => Exception "请求超时：网络连接问题或服务器响应过慢"
                    | _ => Exception "连接错误：无法连接到API服务器"
                    end).
  { destruct Hreply as [->| ->]; eexists; repeat split; reflexivity. }
  destruct H1 as (e & Hrec & Hparse & Hserver & <-).
  rewrite (generate_after_failure json_loads up tracking self messages stop kwargs
             st e (State (log st ++ [c]) (_last_api_usage st) (tracked st))).
  - unfold bind, recover. rewrite Hparse, Hserver. reflexivity.
  - unfold primary_attempt. fold kw. rewrite Hw.
    apply (direct_stream_unanswered json_loads up self messages st key _ e Hkey eq_refl Hrec).
Qed.

(** X16: on the standard path an exception that is neither a parse error
    nor a server error is raised again as it is, after the one standard
    call; nothing is stored or tracked. *)
Theorem unclassified_error_propagates json_loads up tracking self messages stop kwargs
    st msg :
  let kw := delete "analysis_type" (delete "session_id" kwargs) in
  wants_streaming self kw = false ->
  reply_std up (log st) (StdCall messages stop kw) = Raised msg ->
  is_token_parse_error (Exception msg) = false ->
  is_server_error (Exception msg) = false ->
  _generate json_loads up tracking self messages stop kwargs st
  = (inl (Exception msg),
     State (log st ++ [StdCall messages stop kw]) (_last_api_usage st) (tracked st)).
Proof.
  intros kw Hw Hreply Hparse Hserver.
  rewrite (generate_after_failure json_loads up tracking self messages stop kwargs
             st (Exception msg)
             (State (log st ++ [StdCall messages stop kw]) (_last_api_usage st)
                    (tracked st))).
  - unfold bind, recover. rewrite Hparse, Hserver. reflexivity.
  - unfold primary_attempt. fold kw. rewrite Hw. unfold call_std.
    rewrite Hreply. reflexivity.
Qed.

(** X17: after a successful streamed call [_generate] tracks the prompt and
    completion counts that [_direct_api_call] stored, and clears the
    stored usage, also when tracking is not enabled. *)
Theorem streamed_usage_tracked json_loads up tracking self messages stop kwargs
    st res st1 :
  let kw := delete "analysis_type" (delete "session_id" kwargs) in
  wants_streaming self kw = true ->
  _direct_api_call json_loads up self messages true st = (inr res, st1) ->
  exists rec,
    _last_api_usage st1 = Some rec
    /\ _generate json_loads up tracking self messages stop kwargs st
       = (inr res,
          State (log st1) None
                (tracked st ++ if tracking
                               then [(prompt_tokens rec, completion_tokens rec)]
                               else [])).
Proof.
  intros kw Hw Hdirect.
  destruct (stream_usage_origin json_loads up self messages st res st1 Hdirect)
    as (rec & Hrec & Horigin).
  assert (Hpos : 1 <= completion_tokens rec).
  { destruct Horigin as [->|(a & b & Hab & ->)]; simpl; [|lia].
    apply estimate_tokens_pos. }
  pose proof (direct_result_no_usage json_loads up self messages true st res st1 Hdirect)
    as Hnone.
  assert (Htr : tracked st1 = tracked st).
  { destruct (direct_trace json_loads up self messages true st)
      as (r & l & last & Heq & _). rewrite Heq in Hdirect.
    injection Hdirect as _ <-. reflexivity. }
  exists rec. split; [exact Hrec|].
  rewrite (generate_after_success json_loads up tracking self messages stop kwargs
             st res st1)
    by (unfold primary_attempt; fold kw; rewrite Hw; exact Hdirect).
  destruct st1 as [l1 last1 tr1]. cbn [log _last_api_usage tracked] in *. subst.
  unfold track. rewrite Hnone.
  unfold bind, get_last_api_usage, set_last_api_usage, track_usage, ret.
  cbn [_last_api_usage log tracked]. cbn [Z.eqb andb].
  assert (H0 : (completion_tokens rec =? 0) = false) by (apply Z.eqb_neq; lia).
  assert (H1 : (0 <? completion_tokens rec) = true) by (apply Z.ltb_lt; lia).
  rewrite H0, andb_false_r. cbn [andb]. cbv beta iota. rewrite H1, orb_true_r.
  cbn [log tracked].
  destruct tracking; [reflexivity|]. rewrite app_nil_r. reflexivity.
Qed.

(** X18: when the standard call returns counts of which one is positive,
    these are the counts tracked; the stored usage is neither read nor
    cleared. *)
Theorem standard_counts_tracked json_loads up tracking self messages stop kwargs
    st res counts :
  let kw := delete "analysis_type" (delete "session_id" kwargs) in
  let i := uget counts "prompt_tokens" in
  let o := uget counts "completion_tokens" in
  wants_streaming self kw = false ->
  reply_std up (log st) (StdCall messages stop kw) = Returned res ->
  llm_token_usage res = Some counts ->
  0 < i \/ 0 < o ->
  _generate json_loads up tracking self messages stop kwargs st
  = (inr res,
     State (log st ++ [StdCall messages stop kw]) (_last_api_usage st)
           (tracked st ++ if tracking then [(i, o)] else [])).
Proof.
  intros kw i o Hw Hreply Hcounts Hpos.
  rewrite (generate_after_success json_loads up tracking self messages stop kwargs
             st res
             (State (log st ++ [StdCall messages stop kw]) (_last_api_usage st)
                    (tracked st)))
    by (unfold primary_attempt; fold kw; rewrite Hw; unfold call_std;
        rewrite Hreply; reflexivity).
  unfold track. rewrite Hcounts. fold i o.
  unfold bind, get_last_api_usage, set_last_api_usage, track_usage, ret.
  cbn [_last_api_usage log tracked].
  assert (H0 : (i =? 0) && (o =? 0) = false).
  { apply andb_false_iff. destruct Hpos; [left | right]; apply Z.eqb_neq; lia. }
  assert (H1 : (0 <? i) || (0 <? o) = true).
  { apply orb_true_iff. destruct Hpos; [left | right]; apply Z.ltb_lt; lia. }
  destruct (_last_api_usage st) as [last|];
    rewrite ?H0; cbn [andb]; rewrite ?H0; cbn [andb]; rewrite H1;
    (destruct tracking; [reflexivity|]); rewrite app_nil_r; reflexivity.
Qed.

(** X19: when the standard call returns no counts and no usage is stored,
    the record tracked is the estimate from the length of the messages
    as given, with an output count of 1 whatever the answer. *)
Theorem standard_estimate_tracked json_loads up tracking self messages stop kwargs
    st res :
  let kw := delete "analysis_type" (delete "session_id" kwargs) in
  wants_streaming self kw = false ->
  reply_std up (log st) (StdCall messages stop kw) = Returned res ->
  llm_token_usage res = None ->
  _last_api_usage st = None ->
  messages <> [] ->
  _generate json_loads up tracking self messages stop kwargs st
  = (inr res,
     State (log st ++ [StdCall messages stop kw]) None
           (tracked st
              ++ if tracking
                 then [(estimate_tokens (length (join_space (msg_content <$> messages))), 1)]
                 else [])).
Proof.
  intros kw Hw Hreply Hcounts Hlast Hne.
  rewrite (generate_after_success json_loads up tracking self messages stop kwargs
             st res
             (State (log st ++ [StdCall messages stop kw]) (_last_api_usage st)
                    (tracked st)))
    by (unfold primary_attempt; fold kw; rewrite Hw; unfold call_std;
        rewrite Hreply; reflexivity).
  unfold track. rewrite Hcounts.
  unfold bind, get_last_api_usage, set_last_api_usage, track_usage, ret.
  cbn [_last_api_usage log tracked]. rewrite Hlast. cbn [Z.eqb andb].
  destruct messages as [|m ms]; [contradiction|]. cbn [negb].
  change (estimate_tokens 0) with 1. cbn [Z.ltb Z.compare orb].
  rewrite orb_true_r.
  destruct tracking; [reflexivity|]. rewrite app_nil_r. reflexivity.
Qed.


(** The streamed request times out. *)
Lemma stream_timeout_not_retried_witness :
  exists c,
    _generate sc_loads (scripted [] [Timeout]) true (sc_self true) sc_messages None ∅ st0
    = (inl (Exception "请求超时：网络连接问题或服务器响应过慢"), State [c] None []).
Proof.
  eexists.
  refine (eq_trans
            (stream_timeout_not_retried sc_loads (scripted [] [Timeout]) true
               (sc_self true) sc_messages None ∅ st0 "k" _ _ _) _).
  - vm_compute. reflexivity.
  - reflexivity.
  - left. vm_compute. reflexivity.
  - vm_compute. reflexivity.
Defined.

(** The standard call raises a quota error. *)
Lemma unclassified_error_propagates_witness :
  _generate sc_loads (scripted [Raised "quota exceeded"] []) true (sc_self false)
    sc_messages None ∅ st0
  = (inl (Exception "quota exceeded"), State [StdCall sc_messages None ∅] None []).
Proof.
  refine (eq_trans
            (unclassified_error_propagates sc_loads
               (scripted [Raised "quota exceeded"] []) true (sc_self false)
               sc_messages None ∅ st0 "quota exceeded" _ _ _ _) _).
  - vm_compute. reflexivity.
  - vm_compute. reflexivity.
  - vm_compute. reflexivity.
  - vm_compute. reflexivity.
  - vm_compute. reflexivity.
Defined.

(** The replay reports 40 and 25: the record 25, 15 is tracked. *)
Lemma streamed_usage_tracked_witness :
  exists rec l,
    rec = Usage 25 15 40
    /\ _generate sc_loads (sc_replay 40 25) true (sc_self true) sc_messages None ∅ st0
       = (inr (ChatResult (u "AB") None),
          State l None [(prompt_tokens rec, completion_tokens rec)]).
Proof.
  destruct (streamed_usage_tracked sc_loads (sc_replay 40 25) true (sc_self true)
              sc_messages None ∅ st0 (ChatResult (u "AB") None)
              (snd (_direct_api_call sc_loads (sc_replay 40 25) (sc_self true)
                      sc_messages true st0)))
    as (rec & Hrec & Hrun).
  - vm_compute. reflexivity.
  - vm_compute. reflexivity.
  - exists rec, (log (snd (_direct_api_call sc_loads (sc_replay 40 25) (sc_self true)
                             sc_messages true st0))).
    split; [|exact Hrun].
    vm_compute in Hrec. injection Hrec as <-. reflexivity.
Defined.

(** The standard call reports 12 and 5. *)
Lemma standard_counts_tracked_witness :
  _generate sc_loads (scripted [Returned (ChatResult (u "ok") (Some sc_counts))] [])
    true (sc_self false) sc_messages None ∅ st0
  = (inr (ChatResult (u "ok") (Some sc_counts)),
     State [StdCall sc_messages None ∅] None [(12, 5)]).
Proof.
  refine (eq_trans
            (standard_counts_tracked sc_loads
               (scripted [Returned (ChatResult (u "ok") (Some sc_counts))] [])
               true (sc_self false) sc_messages None ∅ st0
               (ChatResult (u "ok") (Some sc_counts)) sc_counts _ _ _ _) _).
  - vm_compute. reflexivity.
  - vm_compute. reflexivity.
  - reflexivity.
  - left. vm_compute. reflexivity.
  - vm_compute. reflexivity.
Defined.

(** No counts: 4 for the six characters sent, 1 for the answer. *)
Lemma standard_estimate_tracked_witness :
  _generate sc_loads (scripted [Returned (ChatResult (u "ok") None)] [])
    true (sc_self false) sc_messages None ∅ st0
  = (inr (ChatResult (u "ok") None),
     State [StdCall sc_messages None ∅] None [(4, 1)]).
Proof.
  refine (eq_trans
            (standard_estimate_tracked sc_loads
               (scripted [Returned (ChatResult (u "ok") None)] [])
               true (sc_self false) sc_messages None ∅ st0
               (ChatResult (u "ok") None) _ _ _ _ _) _).
  - vm_compute. reflexivity.
  - vm_compute. reflexivity.
  - reflexivity.
  - reflexivity.
  - discriminate.
  - vm_compute. reflexivity.
Defined.

(** X12: with an API key, the first request of [_direct_api_call] carries
    the key as bearer token, [max_tokens] exactly when it is positive,
    and one message per input message, each with a content that is
    cleaned, not empty and at most 8000 characters plus the marker. *)
Theorem direct_request_messages json_loads up self messages stream st key :
  api_key self = Some key ->
  exists url headers data timeout l ms,
    log (snd (_direct_api_call json_loads up self messages stream st))
    = log st ++ PostCall url headers data timeout :: l
    /\ headers !! "Authorization" = Some ("Bearer " ++ key)%string
    /\ data !! "max_tokens"
       = match max_tokens self with
         | Some n => if 0 <? n then Some (PInt n) else None
         | None => None
         end
    /\ data !! "messages" = Some (PMessages ms)
    /\ length ms = length messages
    /\ Forall (fun m => clean (content m)
                        /\ (length (content m)
                            <= max_length + length truncation_marker)%nat) ms.
Proof.
  intros Hkey.
  destruct (direct_trace json_loads up self messages stream st)
    as (r & l & last & -> & _ & _ & _ & Hhd).
  specialize (Hhd key Hkey). destruct l as [|c l]; [discriminate|].
  injection Hhd as ->. cbn [snd log].
  eexists _, _, _, _, l, (to_api_message <$> messages).
  split; [reflexivity|].
  split; [unfold request_headers; by simplify_map_eq|].
  split.
  { unfold request_body.
    destruct (max_tokens self) as [n|]; [destruct (0 <? n)|]; by simplify_map_eq. }
  split.
  { unfold request_body.
    destruct (max_tokens self) as [n|]; [destruct (0 <? n)|]; by simplify_map_eq. }
  split; [apply length_fmap|].
  apply Forall_fmap, Forall_forall. intros m _. cbn [content to_api_message compose].
  split; [apply clean_message_content_is_clean | apply clean_message_content_length].
Qed.

(** One message in, one message sent. *)
Lemma direct_request_messages_witness :
  exists url headers data timeout l ms,
    log (snd (_direct_api_call sc_loads (sc_replay 40 25) (sc_self true)
                sc_messages true st0))
    = PostCall url headers data timeout :: l
    /\ data !! "messages" = Some (PMessages ms)
    /\ length ms = 1%nat.
Proof.
  destruct (direct_request_messages sc_loads (sc_replay 40 25) (sc_self true)
              sc_messages true st0 "k" eq_refl)
    as (url & headers & data & timeout & l & ms & Hlog & _ & _ & Hms & Hlen & _).
  exists url, headers, data, timeout, l, ms. auto.
Defined.

(** ** The API key and the base URL *)

Lemma attr_text_nonempty v : attr_truthy v = true -> attr_text v <> "".
Proof.
  destruct v as [|s|s]; simpl; [discriminate | |];
    intros H ->; discriminate.
Qed.

Lemma first_truthy_none attrs names :
  first_truthy attrs names = None <-> Forall (no_key attrs) names.
Proof.
  induction names as [|a names IH]; simpl.
  - split; [constructor | reflexivity].
  - rewrite Forall_cons, <- IH. unfold no_key.
    destruct (attrs !! a) as [v|]; [destruct (attr_truthy v)|].
    + split; [discriminate | intros [? _]; discriminate].
    + tauto.
    + tauto.
Qed.

Lemma first_truthy_nonempty attrs names k :
  first_truthy attrs names = Some k -> k <> "".
Proof.
  induction names as [|a names IH]; simpl; [discriminate|].
  destruct (attrs !! a) as [v|]; [|exact IH].
  destruct (attr_truthy v) eqn:Hv; [|exact IH].
  intros H. injection H as <-. apply attr_text_nonempty, Hv.
Qed.

(** X20: [_get_api_key] never returns an empty key; it fails, always with
    the same message, exactly when none of the three attributes holds a
    non-empty value and the environment variable is unset or empty; a
    non-empty [openai_api_key] wins over every other source. *)
Theorem api_key_lookup (attrs : gmap string attr_value) (env_key : option string) :
  (forall k, _get_api_key attrs env_key = inr k -> k <> "")
  /\ (forall e, _get_api_key attrs env_key = inl e -> e = api_key_missing)
  /\ (_get_api_key attrs env_key = inl api_key_missing
      <-> Forall (no_key attrs) ["openai_api_key"; "api_key"; "_api_key"]
          /\ (env_key = None \/ env_key = Some ""))
  /\ (forall v, attrs !! "openai_api_key" = Some v -> attr_truthy v = true ->
      _get_api_key attrs env_key = inr (attr_text v)).
Proof.
  unfold _get_api_key.
  pose proof (first_truthy_none attrs ["openai_api_key"; "api_key"; "_api_key"]) as Hnone.
  pose proof (first_truthy_nonempty attrs ["openai_api_key"; "api_key"; "_api_key"]) as Hne.
  split; [|split; [|split]].
  - intros k. destruct (first_truthy _ _) as [k'|].
    + intros H. injection H as <-. apply (Hne k' eq_refl).
    + destruct env_key as [k'|]; [|discriminate].
      destruct (String.eqb_spec k' ""); simpl; [discriminate|].
      intros H. injection H as <-. assumption.
  - intros e. destruct (first_truthy _ _) as [k'|]; [discriminate|].
    destruct env_key as [k'|]; [destruct (negb _); [discriminate|]|];
      intros H; injection H as <-; reflexivity.
  - destruct (first_truthy _ _) as [k'|].
    + split; [discriminate|]. intros [H _]. apply Hnone in H. discriminate.
    + destruct env_key as [k'|].
      * destruct (String.eqb_spec k' "") as [->|Hk]; simpl.
        -- split; [|reflexivity]. intros _. split; [apply Hnone; reflexivity | auto].
        -- split; [discriminate|]. intros [_ [H|H]]; [discriminate | congruence].
      * split; [|reflexivity]. intros _. split; [apply Hnone; reflexivity | auto].
  - intros v Hv Ht. cbn [first_truthy]. rewrite Hv, Ht. reflexivity.
Qed.

Lemma first_url_nonempty attrs names k : first_url attrs names = Some k -> k <> "".
Proof.
  induction names as [|a names IH]; simpl; [discriminate|].
  destruct (attrs !! a) as [[s|]|]; [|exact IH ..].
  destruct (String.eqb_spec s ""); simpl; [exact IH|].
  intros H. injection H as <-. assumption.
Qed.

(** X21: [_get_base_url] never returns an empty URL: it is the default URL
    when no attribute holds a non-empty text, and a non-empty [base_url]
    wins. *)
Theorem base_url_lookup (attrs : gmap string (option string)) :
  _get_base_url attrs <> ""
  /\ (Forall (fun a => attrs !! a = None \/ attrs !! a = Some None
                       \/ attrs !! a = Some (Some ""))
             ["base_url"; "openai_api_base"; "_base_url"] ->
      _get_base_url attrs = default_base_url)
  /\ (forall s, attrs !! "base_url" = Some (Some s) -> s <> "" ->
      _get_base_url attrs = s).
Proof.
  unfold _get_base_url. split; [|split].
  - destruct (first_url _ _) as [k|] eqn:H; simpl; [|discriminate].
    eapply first_url_nonempty, H.
  - intros H. repeat (apply Forall_cons in H as [? H]).
    cbn [first_url].
    repeat match goal with
           | Ha : _ !! _ = None \/ _ \/ _ |- _ => destruct Ha as [->|[->| ->]]
           end; reflexivity.
  - intros s Hs Hne. cbn [first_url]. rewrite Hs.
    destruct (String.eqb_spec s ""); [contradiction | reflexivity].
Qed.

(** X22: without an API key [_direct_api_call] raises the configuration
    error, whose text is the one of [_get_api_key], before any request;
    a streaming [_generate] raises the same error and makes no request
    either. *)
Theorem missing_key_no_request json_loads up tracking self messages stop kwargs st :
  api_key self = None ->
  (forall stream,
      _direct_api_call json_loads up self messages stream st
      = (inl (Exception ("配置错误：" ++ api_key_missing)), st))
  /\ (wants_streaming self (delete "analysis_type" (delete "session_id" kwargs)) = true ->
      _generate json_loads up tracking self messages stop kwargs st
      = (inl (Exception ("配置错误：" ++ api_key_missing)), st)).
Proof.
  intros Hkey.
  assert (Hd : forall stream,
             _direct_api_call json_loads up self messages stream st
             = (inl (Exception ("配置错误：" ++ api_key_missing)), st)).
  { intros stream. unfold _direct_api_call. rewrite Hkey. reflexivity. }
  split; [exact Hd|]. intros Hw.
  rewrite (generate_after_failure json_loads up tracking self messages stop kwargs
             st (Exception ("配置错误：" ++ api_key_missing)) st).
  - reflexivity.
  - unfold primary_attempt. rewrite Hw. apply Hd.
Qed.

(** A streaming adapter without a key. *)
Lemma missing_key_no_request_witness :
  _generate sc_loads (scripted [] []) true
    (Adapter "m" None "http://x" (1 # 10) (Some 2000) 120 true true false ∅)
    sc_messages None ∅ st0
  = (inl (Exception "配置错误：无法获取API密钥：请检查初始化参数或环境变量OPENAI_API_KEY"), st0).
Proof.
  apply (missing_key_no_request sc_loads (scripted [] []) true
           (Adapter "m" None "http://x" (1 # 10) (Some 2000) 120 true true false ∅)
           sc_messages None ∅ st0 eq_refl).
  reflexivity.
Defined.

(** ** The tables of supported parameters *)

Section TableFacts.
Variable py_lower : string -> string.

Lemma table_supports_core (X : gset string) :
  {[ "model"; "messages"; "temperature"; "max_tokens" ]} ⊆ X ->
  supports_core (gset_to_gmap true X).
Proof.
  intros H. unfold supports_core, core_params.
  repeat constructor; apply lookup_gset_to_gmap_Some; (split; [|reflexivity]);
    set_solver.
Qed.

Lemma parsed_supports_core data name :
  supports_core (_parse_model_params py_lower data name).
Proof.
  unfold _parse_model_params.
  repeat case_match; apply table_supports_core; set_solver.
Qed.

Lemma default_supports_core name :
  supports_core (_get_default_supported_params py_lower name).
Proof.
  unfold _get_default_supported_params.
  repeat case_match; apply table_supports_core; set_solver.
Qed.
End TableFacts.

(** X23: for every model name the default table of supported parameters is
    part of the table read from a reply, every entry of which is [True];
    for a DeepSeek model the two are the same. *)
Theorem default_params_subset_parsed py_lower data name :
  _get_default_supported_params py_lower name ⊆ _parse_model_params py_lower data name
  /\ (forall k b, _parse_model_params py_lower data name !! k = Some b -> b = true)
  /\ (contains "deepseek" (py_lower name) = true ->
      _parse_model_params py_lower data name
      = _get_default_supported_params py_lower name).
Proof.
  unfold _get_default_supported_params, _parse_model_params.
  split; [|split].
  - apply map_subseteq_spec. intros k b.
    rewrite !lookup_gset_to_gmap_Some. intros [Hin <-]. split; [|reflexivity].
    destruct (contains "deepseek" (py_lower name)); [set_solver|].
    destruct (contains "gpt" (py_lower name)); [set_solver|].
    destruct (contains "openai" (py_lower name)); set_solver.
  - intros k b. rewrite lookup_gset_to_gmap_Some. intros [_ <-]. reflexivity.
  - intros ->. reflexivity.
Qed.

(** X24: [_get_model_supported_params] makes at most one request, and when
    every cached table supports [model], [messages], [temperature] and
    [max_tokens], so does the table it returns and every table of the
    cache it leaves. *)
Theorem supported_params_core py_lower reply_get api_key base_url cache name :
  (forall n t, cache !! n = Some t -> supports_core t) ->
  let '(table, cache', requests) :=
    _get_model_supported_params py_lower reply_get api_key base_url cache name in
  supports_core table
  /\ (forall n t, cache' !! n = Some t -> supports_core t)
  /\ (length requests <= 1)%nat.
Proof.
  intros Hinv.
  assert (Hdefault : forall requests : list get_request,
            (length requests <= 1)%nat ->
            supports_core (_get_default_supported_params py_lower name)
            /\ (forall n t, cache !! n = Some t -> supports_core t)
            /\ (length requests <= 1)%nat).
  { intros requests Hlen. split; [apply default_supports_core|].
    split; [exact Hinv | exact Hlen]. }
  unfold _get_model_supported_params.
  destruct (cache !! name) as [t|] eqn:Hc.
  { split; [eapply Hinv, Hc|]. split; [exact Hinv | simpl; lia]. }
  destruct api_key as [key|]; [|apply Hdefault; simpl; lia].
  cbv zeta. destruct (reply_get _) as [status [data|]|];
    [destruct (status =? 200) | destruct (status =? 200) |];
    try (apply Hdefault; simpl; lia).
  split; [apply parsed_supports_core|]. split; [|simpl; lia]. intros n t.
  destruct (decide (n = name)) as [->|Hn].
  - rewrite lookup_insert_eq. intros H. injection H as <-. apply parsed_supports_core.
  - rewrite lookup_insert_ne by congruence. apply Hinv.
Qed.

(** An empty cache and a DeepSeek model. *)
Lemma supported_params_core_witness :
  supports_core
    (fst (fst (_get_model_supported_params lower
                 (fun _ => GetResponded 200 (Some JNull))
                 (Some "k") "https://llm.submodel.ai/v1" ∅ "deepseek-chat"))).
Proof.
  pose proof (supported_params_core lower (fun _ => GetResponded 200 (Some JNull))
                (Some "k") "https://llm.submodel.ai/v1" ∅ "deepseek-chat") as H.
  destruct (_get_model_supported_params _ _ _ _ _ _) as [[table cache'] requests].
  apply H. intros n t Hn. rewrite lookup_empty in Hn. discriminate.
Defined.

Lemma get_model_supported_params_cases py_lower reply key url cache name t c r :
  _get_model_supported_params py_lower reply key url cache name = (t, c, r) ->
  (cache !! name = Some t /\ c = cache /\ r = [])
  \/ (cache !! name = None /\ c = cache
      /\ t = _get_default_supported_params py_lower name)
  \/ (cache !! name = None /\ c = <[name := t]> cache).
Proof.
  unfold _get_model_supported_params. intros H.
  repeat case_match; simplify_eq; auto.
Qed.

(** X25: a table fetched with success is cached under the model name: the
    next query for that name returns it without a request, whatever the
    key, the URL and the service then are. A failed query caches nothing
    and gives the default table; no query changes another name's entry. *)
Theorem model_params_cache_reuse py_lower reply1 key1 url1 reply2 key2 url2 cache name :
  let '(table1, cache1, requests1) :=
    _get_model_supported_params py_lower reply1 key1 url1 cache name in
  let '(table2, cache2, requests2) :=
    _get_model_supported_params py_lower reply2 key2 url2 cache1 name in
  (cache1 !! name = None ->
   cache1 = cache /\ table1 = _get_default_supported_params py_lower name)
  /\ (cache1 !! name <> None ->
      cache1 !! name = Some table1
      /\ table2 = table1 /\ cache2 = cache1 /\ requests2 = [])
  /\ (forall n, n <> name -> cache1 !! n = cache !! n).
Proof.
  destruct (_get_model_supported_params py_lower reply1 key1 url1 cache name)
    as [[table1 cache1] requests1] eqn:H1.
  destruct (_get_model_supported_params py_lower reply2 key2 url2 cache1 name)
    as [[table2 cache2] requests2] eqn:H2.
  apply get_model_supported_params_cases in H1, H2.
  destruct H1 as [(Hc & -> & ->)|[(Hc & -> & ->)|(Hc & ->)]].
  - split; [congruence|]. split; [|reflexivity]. intros _.
    destruct H2 as [(Hc2 & -> & ->)|[(Hc2 & _)|(Hc2 & _)]]; [|congruence ..].
    split; [exact Hc|]. split; [congruence | auto].
  - split; [auto|]. split; [congruence | reflexivity].
  - rewrite lookup_insert_eq in H2 |- *.
    split; [discriminate|]. split.
    + intros _. destruct H2 as [(Hc2 & -> & ->)|[(Hc2 & _)|(Hc2 & _)]];
        [|discriminate ..].
      split; [reflexivity|]. split; [congruence | auto].
    + intros n Hn. apply lookup_insert_ne. congruence.
Qed.

(** ** The factory *)

(** X26: the adapter of [create_third_party_openai] does not stream, passes
    no extra option to its parent and has a timeout of 120; unless the
    call itself has [stream=True], its [_generate] starts with the
    standard call, given the caller's options. *)
Theorem factory_standard_path model key url t mt :
  exists self,
    create_third_party_openai model key url t mt = Some self
    /\ streaming self = false
    /\ user_wants_streaming self = false
    /\ parent_kwargs self = ∅
    /\ request_timeout self = 120
    /\ forall json_loads up tracking messages stop kwargs st,
        kwargs !! "stream" <> Some (PBool true) ->
        exists l,
          log (snd (_generate json_loads up tracking self messages stop kwargs st))
          = log st ++ StdCall messages stop
                        (delete "analysis_type" (delete "session_id" kwargs)) :: l.
Proof.
  unfold create_third_party_openai, init, read_stream. rewrite !lookup_empty.
  eexists. split; [reflexivity|]. cbn [streaming user_wants_streaming parent_kwargs
                                         request_timeout orb].
  split; [reflexivity|]. split; [reflexivity|].
  split; [rewrite !delete_empty; reflexivity|]. split; [reflexivity|].
  intros json_loads up tracking messages stop kwargs st Hstream.
  apply generate_first_std. unfold wants_streaming.
  rewrite !lookup_delete_ne by discriminate. cbn [user_wants_streaming].
  destruct (kwargs !! "stream") as [[|[]| | | | |]|]; try reflexivity.
  contradiction.
Qed.

(** ** The subclass *)

(** X27: the constructor of [OptimizedOpenAI] builds the adapter the parent
    constructor builds from the same arguments. *)
Theorem optimized_init_same model key url t mt (kwargs : gmap string pyval) :
  OptimizedOpenAI.init model key url t mt kwargs = init model key url t mt kwargs.
Proof.
  unfold OptimizedOpenAI.init.
  destruct (kwargs !! "streaming") as [v|] eqn:Hs; [reflexivity|].
  unfold init, read_stream.
  rewrite delete_insert_eq, lookup_insert_eq, Hs.
  rewrite lookup_insert_ne by discriminate. reflexivity.
Qed.

Section SubclassFacts.
Variable json_loads : str -> option json.
Variable up : upstream.
Variable token_tracker_imported : bool.
Variable str_of_exn : exn -> str.
Variable self : adapter.

Lemma track_optimized_effect st :
  exists tr,
    OptimizedOpenAI._track_optimized_usage token_tracker_imported st
    = (inr tt, State (log st) (_last_api_usage st) tr)
    /\ (tr = tracked st
        \/ exists rec, _last_api_usage st = Some rec
                       /\ token_tracker_imported = true
                       /\ (0 < prompt_tokens rec \/ 0 < completion_tokens rec)
                       /\ tr = tracked st ++ [(prompt_tokens rec, completion_tokens rec)]).
Proof.
  destruct st as [l last tr].
  unfold OptimizedOpenAI._track_optimized_usage, bind, get_last_api_usage,
    track_usage, ret. cbn [log _last_api_usage tracked].
  destruct last as [rec|]; [|eexists; split; [reflexivity | left; reflexivity]].
  cbv zeta.
  destruct ((0 <? prompt_tokens rec) || (0 <? completion_tokens rec)) eqn:Hpos;
    [|eexists; split; [reflexivity | left; reflexivity]].
  destruct token_tracker_imported;
    [|eexists; split; [reflexivity | left; reflexivity]].
  eexists. split; [reflexivity|]. right. exists rec.
  split; [reflexivity|]. split; [reflexivity|]. split; [|reflexivity].
  apply orb_true_iff in Hpos. destruct Hpos as [H|H]; apply Z.ltb_lt in H; auto.
Qed.

(** The first request of the direct path taken by the subclass. *)
Lemma optimized_first_request messages b key st :
  api_key self = Some key ->
  exists l,
    log (snd (try_catch
                (result <- _direct_api_call json_loads up self messages b ;;
                 OptimizedOpenAI._track_optimized_usage token_tracker_imported ;;;
                 ret result)
                (fun e =>
                   ret (_create_error_response (api_call_failed ++ str_of_exn e)))
                st))
    = log st ++ PostCall (base_url self ++ "/chat/completions")%string
                  (request_headers key)
                  (request_body self (to_api_message <$> messages) b)
                  (request_timeout self) :: l.
Proof.
  intros Hkey. unfold try_catch, bind at 1.
  destruct (direct_trace json_loads up self messages b st)
    as (r & l & last & -> & _ & _ & _ & Hhd).
  specialize (Hhd key Hkey). destruct l as [|c l]; [discriminate|].
  injection Hhd as ->. exists l.
  destruct r as [e|res].
  - reflexivity.
  - unfold bind, ret.
    match goal with |- context [OptimizedOpenAI._track_optimized_usage _ ?s] =>
      destruct (track_optimized_effect s) as (tr & -> & _) end.
    reflexivity.
Qed.
End SubclassFacts.

(** X28: [OptimizedOpenAI._generate] never raises and never makes a
    standard call: it returns a result after at most three requests of
    the direct path; it tracks at most one record, which is the stored
    usage, and leaves that usage stored. *)
Theorem optimized_never_raises json_loads up tracking str_of_exn self messages stop
    (kwargs : gmap string pyval) (flag : option bool) :
  kwargs !! "stream" = PBool <$> flag ->
  exists run,
    OptimizedOpenAI._generate json_loads up tracking str_of_exn self messages stop kwargs
    = Some run
    /\ forall st,
        exists res l last tr,
          run st = (inr res, State (log st ++ l) last tr)
          /\ Forall direct_call l /\ (length l <= 3)%nat
          /\ (tr = tracked st
              \/ exists rec,
                   last = Some rec /\ tracking = true
                   /\ tr = tracked st ++ [(prompt_tokens rec, completion_tokens rec)]).
Proof.
  intros Hflag. unfold OptimizedOpenAI._generate, stream_mode. rewrite Hflag.
  set (b := default (streaming self) flag).
  exists (try_catch
            (result <- _direct_api_call json_loads up self messages b ;;
             OptimizedOpenAI._track_optimized_usage tracking ;;;
             ret result)
            (fun e => ret (_create_error_response (api_call_failed ++ str_of_exn e)))).
  split; [destruct flag; reflexivity|].
  intros st. unfold try_catch, bind at 1.
  destruct (direct_trace json_loads up self messages b st)
    as (r & l & last & -> & Hl & Hlen & _).
  destruct r as [e|res].
  - unfold ret. eexists _, l, last, _. split; [reflexivity|]. auto.
  - unfold bind, ret.
    destruct (track_optimized_effect tracking (State (log st ++ l) last (tracked st)))
      as (tr & -> & Htr). cbn [log _last_api_usage tracked] in *.
    eexists _, l, last, tr. split; [reflexivity|].
    split; [exact Hl|]. split; [exact Hlen|].
    destruct Htr as [->|(rec & -> & Ht & _ & ->)]; [left; reflexivity|].
    right. exists rec. auto.
Qed.

(** A request answered with 404 gives an answer, not an exception. *)
Lemma optimized_never_raises_witness :
  exists run res st',
    OptimizedOpenAI._generate sc_loads (scripted [] [not_found]) true (fun _ => [])
      (sc_self false) sc_messages None ∅ = Some run
    /\ run st0 = (inr res, st').
Proof.
  destruct (optimized_never_raises sc_loads (scripted [] [not_found]) true (fun _ => [])
              (sc_self false) sc_messages None ∅ None)
    as (run & Hrun & Hst); [vm_compute; reflexivity|].
  destruct (Hst st0) as (res & l & last & tr & Heq & _).
  eexists run, res, _. split; [exact Hrun | exact Heq].
Defined.

(** X29: [OptimizedOpenAI] does not read the constructor's [stream]: built
    with [stream=True] and no [streaming=True] the adapter wants
    streaming, yet its [_generate] sends a request with [stream] false. *)
Theorem optimized_ignores_constructor_stream json_loads up tracking str_of_exn
    model key url t mt (kwargs gen_kwargs : gmap string pyval) messages stop st :
  kwargs !! "streaming" = None \/ kwargs !! "streaming" = Some (PBool false) ->
  kwargs !! "stream" = Some (PBool true) ->
  gen_kwargs !! "stream" = None ->
  exists self run l,
    OptimizedOpenAI.init model (Some key) url t mt kwargs = Some self
    /\ user_wants_streaming self = true
    /\ OptimizedOpenAI._generate json_loads up tracking str_of_exn self messages stop
         gen_kwargs = Some run
    /\ log (snd (run st))
       = log st ++ PostCall (url ++ "/chat/completions")%string (request_headers key)
                     (request_body self (to_api_message <$> messages) false) 120 :: l.
Proof.
  intros Hstreaming Hstream Hgen.
  assert (Hinit : exists self,
            OptimizedOpenAI.init model (Some key) url t mt kwargs = Some self
            /\ user_wants_streaming self = true /\ streaming self = false
            /\ api_key self = Some key /\ base_url self = url
            /\ request_timeout self = 120).
  { unfold OptimizedOpenAI.init.
    destruct Hstreaming as [Hs|Hs]; rewrite Hs; unfold init, read_stream.
    - rewrite lookup_insert_eq, lookup_insert_ne, Hstream by discriminate.
      eexists. split; [reflexivity|]. repeat split.
    - rewrite Hs, Hstream. eexists. split; [reflexivity|]. repeat split. }
  destruct Hinit as (self & Hinit & Hwants & Hflag & Hkey & Hurl & Htimeout).
  destruct (optimized_first_request json_loads up tracking str_of_exn self messages
              false key st Hkey) as [l Hl].
  rewrite Hurl, Htimeout in Hl.
  exists self. unfold OptimizedOpenAI._generate, stream_mode. rewrite Hgen.
  cbv beta iota. rewrite Hflag.
  eexists _, l. split; [exact Hinit|]. split; [exact Hwants|].
  split; [reflexivity | exact Hl].
Qed.

(** Built with [stream=True] alone. *)
Lemma optimized_ignores_constructor_stream_witness :
  exists self run,
    OptimizedOpenAI.init "m" (Some "k") "http://x" (1 # 10) (Some 2000)
      {["stream" := PBool true]} = Some self
    /\ user_wants_streaming self = true
    /\ OptimizedOpenAI._generate sc_loads sc_body_usage true (fun _ => []) self
         sc_messages None ∅ = Some run.
Proof.
  destruct (optimized_ignores_constructor_stream sc_loads sc_body_usage true (fun _ => [])
              "m" "k" "http://x" (1 # 10) (Some 2000)
              {["stream" := PBool true]} ∅ sc_messages None st0)
    as (self & run & l & Hinit & Hwants & Hrun & _).
  - left. vm_compute. reflexivity.
  - vm_compute. reflexivity.
  - vm_compute. reflexivity.
  - exists self, run. auto.
Defined.
